(** * f5guardrails: the chunking, indexing and retrieval pipeline

    A shallow embedding of [build_index.py] and of the retrieval helpers
    of [geminitestv1.py] / [geminitestv2.py], with the properties the
    design document states about them.

    Python values are modelled as follows.
    - [int] is [Z] (unbounded).
    - [str] is a list of Unicode code points, [list N]; ASCII literals of
      the source are written with [lit].
    - [bytes] is a list of byte values, [list N] with every element below 256.
    - a [dict] with string keys is a [gmap (list N) _].
    - a loop that may not terminate takes fuel and returns [None] when the
      fuel runs out.
    - an exception is the [inl] of a sum. *)

From Stdlib Require Import ZArith NArith List Lia String Ascii Bool.
From Stdlib Require Import DecimalN DecimalFacts.
From stdpp Require Import base option list gmap.

Import ListNotations.

(* ===================================================================== *)
(** ** Python strings *)
(* ===================================================================== *)

Module PyStr.

(** A [str] is a sequence of code points. *)
Abbreviation pystr := (list N).

(** The code points of an ASCII literal of the source. *)
Fixpoint lit (s : string) : pystr :=
  match s with
  | EmptyString => []
  | String c s' => N_of_ascii c :: lit s'
  end.

(** [str.isspace] on one code point: the code points CPython's
    [_PyUnicode_IsWhitespace] accepts. [str.strip()] with no argument
    removes exactly these. *)
Definition isspace (c : N) : bool :=
  ((9 <=? c) && (c <=? 13) || (28 <=? c) && (c <=? 32)
   || (c =? 133) || (c =? 160) || (c =? 5760)
   || (8192 <=? c) && (c <=? 8202)
   || (c =? 8232) || (c =? 8233) || (c =? 8239) || (c =? 8287)
   || (c =? 12288))%N.

(** [s.lstrip()] *)
Fixpoint lstrip (s : pystr) : pystr :=
  match s with
  | [] => []
  | c :: s' => if isspace c then lstrip s' else s
  end.

(** [s.rstrip()] *)
Definition rstrip (s : pystr) : pystr := rev (lstrip (rev s)).

(** [s.strip()] *)
Definition strip (s : pystr) : pystr := rstrip (lstrip s).

(** Truth value of a string: [if chunk:] *)
Definition truthy (s : pystr) : bool :=
  match s with [] => false | _ => true end.

(** One bound of a slice, as CPython's [PySlice_AdjustIndices] computes it
    for step 1: a negative index counts from the end, then the index is
    clipped to [0, n]. *)
Definition adjust_index (n i : Z) : Z :=
  let i := if (i <? 0)%Z then (i + n)%Z else i in
  if (i <? 0)%Z then 0%Z else if (n <? i)%Z then n else i.

(** [s[lo:hi]] *)
Definition slice (s : pystr) (lo hi : Z) : pystr :=
  let n := Z.of_nat (length s) in
  let lo' := adjust_index n lo in
  let hi' := adjust_index n hi in
  take (Z.to_nat (hi' - lo')) (drop (Z.to_nat lo') s).

(** [sep.join(parts)] *)
Fixpoint join (sep : pystr) (parts : list pystr) : pystr :=
  match parts with
  | [] => []
  | [p] => p
  | p :: ps => p ++ sep ++ join sep ps
  end.

(** Decimal digits of a natural number, most significant first. *)
Fixpoint uint_digits (d : Decimal.uint) : pystr :=
  match d with
  | Decimal.Nil => []
  | Decimal.D0 d' => 48%N :: uint_digits d'
  | Decimal.D1 d' => 49%N :: uint_digits d'
  | Decimal.D2 d' => 50%N :: uint_digits d'
  | Decimal.D3 d' => 51%N :: uint_digits d'
  | Decimal.D4 d' => 52%N :: uint_digits d'
  | Decimal.D5 d' => 53%N :: uint_digits d'
  | Decimal.D6 d' => 54%N :: uint_digits d'
  | Decimal.D7 d' => 55%N :: uint_digits d'
  | Decimal.D8 d' => 56%N :: uint_digits d'
  | Decimal.D9 d' => 57%N :: uint_digits d'
  end.

(** [str(i)] for an [int]. *)
Definition str_int (i : Z) : pystr :=
  match i with
  | Z0 => [48%N]
  | Zpos p => uint_digits (Pos.to_uint p)
  | Zneg p => 45%N :: uint_digits (Pos.to_uint p)
  end.

End PyStr.

Import PyStr.

(* ===================================================================== *)
(** ** hashlib.sha256 *)
(* ===================================================================== *)

Module Sha256.

Local Open Scope Z_scope.

Definition w32 (x : Z) : Z := x mod 2 ^ 32.

Definition rotr (n x : Z) : Z :=
  w32 (Z.lor (Z.shiftr x n) (Z.shiftl x (32 - n))).

Definition shr (n x : Z) : Z := Z.shiftr x n.

Definition Ch (x y z : Z) : Z :=
  Z.lxor (Z.land x y) (Z.land (Z.lxor x 4294967295) z).

Definition Maj (x y z : Z) : Z :=
  Z.lxor (Z.lxor (Z.land x y) (Z.land x z)) (Z.land y z).

Definition Sigma0 (x : Z) : Z := Z.lxor (Z.lxor (rotr 2 x) (rotr 13 x)) (rotr 22 x).
Definition Sigma1 (x : Z) : Z := Z.lxor (Z.lxor (rotr 6 x) (rotr 11 x)) (rotr 25 x).
Definition sigma0 (x : Z) : Z := Z.lxor (Z.lxor (rotr 7 x) (rotr 18 x)) (shr 3 x).
Definition sigma1 (x : Z) : Z := Z.lxor (Z.lxor (rotr 17 x) (rotr 19 x)) (shr 10 x).

(** The constants are fractional parts of roots of the first primes,
    as FIPS 180-4 defines them. *)
Definition primes_upto (m : nat) : list Z :=
  fold_left
    (fun acc k =>
       if forallb (fun d => negb (k mod d =? 0)) acc then acc ++ [k] else acc)
    (map Z.of_nat (seq 2 (m - 1))) [].

(** The largest [r] below [2 ^ bits] with [r ^ 3 <= x], bit by bit. *)
Fixpoint cube_root (bits : nat) (x r : Z) : Z :=
  match bits with
  | O => r
  | S bits' =>
      let r' := r + 2 ^ Z.of_nat bits' in
      if r' * r' * r' <=? x then cube_root bits' x r' else cube_root bits' x r
  end.

(** The round constants: the first 32 bits of the fractional parts of the
    cube roots of the first 64 primes. *)
Definition K : list Z :=
  Eval vm_compute in
    map (fun p => w32 (cube_root 36 (p * 2 ^ 96) 0)) (primes_upto 311).

(** The eight working words. *)
Record state := State {
  sa : Z; sb : Z; sc : Z; sd : Z; se : Z; sf : Z; sg : Z; sh : Z
}.

Definition root_word (p : Z) : Z := w32 (Z.sqrt (p * 2 ^ 64)).

(** The initial hash value: the first 32 bits of the fractional parts of
    the square roots of the first 8 primes. *)
Definition H0 : state :=
  Eval vm_compute in
    State (root_word 2) (root_word 3) (root_word 5) (root_word 7)
          (root_word 11) (root_word 13) (root_word 17) (root_word 19).

(** Padding: a 1 bit, zeros up to 56 modulo 64, the bit length on 8 bytes. *)
Definition be_bytes (k : nat) (x : Z) : list Z :=
  map (fun i => Z.land (Z.shiftr x (8 * Z.of_nat i)) 255) (rev (seq 0 k)).

Definition pad (msg : list Z) : list Z :=
  let len := Z.of_nat (length msg) in
  let zeros := Z.to_nat ((55 - len) mod 64) in
  msg ++ [128] ++ repeat 0 zeros ++ be_bytes 8 (8 * len).

Definition be_word (b0 b1 b2 b3 : Z) : Z :=
  Z.lor (Z.lor (Z.shiftl b0 24) (Z.shiftl b1 16)) (Z.lor (Z.shiftl b2 8) b3).

(** Big-endian 32-bit words of a byte sequence. *)
Fixpoint words (bs : list Z) : list Z :=
  match bs with
  | b0 :: b1 :: b2 :: b3 :: r => be_word b0 b1 b2 b3 :: words r
  | _ => []
  end.

(** The message schedule, newest word first. *)
Fixpoint extend (k : nat) (w : list Z) : list Z :=
  match k with
  | O => w
  | S k' =>
      extend k'
        (w32 (sigma1 (nth 1 w 0) + nth 6 w 0 + sigma0 (nth 14 w 0) + nth 15 w 0) :: w)
  end.

Definition schedule (block : list Z) : list Z := rev (extend 48 (rev block)).

Definition round (s : state) (kw : Z * Z) : state :=
  let t1 := sh s + Sigma1 (se s) + Ch (se s) (sf s) (sg s) + fst kw + snd kw in
  let t2 := Sigma0 (sa s) + Maj (sa s) (sb s) (sc s) in
  State (w32 (t1 + t2)) (sa s) (sb s) (sc s) (w32 (sd s + t1)) (se s) (sf s) (sg s).

Definition compress (h : state) (block : list Z) : state :=
  let s := fold_left round (combine K (schedule block)) h in
  State (w32 (sa h + sa s)) (w32 (sb h + sb s)) (w32 (sc h + sc s)) (w32 (sd h + sd s))
        (w32 (se h + se s)) (w32 (sf h + sf s)) (w32 (sg h + sg s)) (w32 (sh h + sh s)).

(** The 16-word blocks of a word sequence. *)
Fixpoint blocks (fuel : nat) (ws : list Z) : list (list Z) :=
  match fuel, ws with
  | S fuel', _ :: _ => firstn 16 ws :: blocks fuel' (skipn 16 ws)
  | _, _ => []
  end.

Definition digest (msg : list N) : state :=
  let ws := words (pad (map Z.of_N msg)) in
  fold_left compress (blocks (length ws) ws) H0.

Definition hex_digit (d : Z) : N :=
  Z.to_N (if d <? 10 then 48 + d else 87 + d).

Definition hex8 (w : Z) : list N :=
  map (fun i => hex_digit (Z.land (Z.shiftr w (4 * i)) 15)) [7; 6; 5; 4; 3; 2; 1; 0].

(** [hashlib.sha256(msg).hexdigest()] *)
Definition hexdigest (msg : list N) : pystr :=
  let s := digest msg in
  hex8 (sa s) ++ hex8 (sb s) ++ hex8 (sc s) ++ hex8 (sd s)
  ++ hex8 (se s) ++ hex8 (sf s) ++ hex8 (sg s) ++ hex8 (sh s).

End Sha256.

(* ===================================================================== *)
(** ** Reading a file in text mode *)
(* ===================================================================== *)

Module TextIO.

Local Open Scope N_scope.

(** A continuation byte, 10xxxxxx. *)
Definition is_cont (b : N) : bool := (128 <=? b) && (b <=? 191).

(** The second byte allowed after the lead of a three-byte sequence:
    E0 excludes overlong forms, ED excludes surrogates. *)
Definition second_ok3 (b0 b1 : N) : bool :=
  if b0 =? 224 then (160 <=? b1) && (b1 <=? 191)
  else if b0 =? 237 then (128 <=? b1) && (b1 <=? 159)
  else is_cont b1.

(** The second byte allowed after the lead of a four-byte sequence:
    F0 excludes overlong forms, F4 stops at U+10FFFF. *)
Definition second_ok4 (b0 b1 : N) : bool :=
  if b0 =? 240 then (144 <=? b1) && (b1 <=? 191)
  else if b0 =? 244 then (128 <=? b1) && (b1 <=? 143)
  else is_cont b1.

Definition cp2 (b0 b1 : N) : N := (b0 - 192) * 64 + (b1 - 128).
Definition cp3 (b0 b1 b2 : N) : N :=
  (b0 - 224) * 4096 + (b1 - 128) * 64 + (b2 - 128).
Definition cp4 (b0 b1 b2 b3 : N) : N :=
  (b0 - 240) * 262144 + (b1 - 128) * 4096 + (b2 - 128) * 64 + (b3 - 128).

(** The UTF-8 decoder with an error handler. At an error CPython reports
    the lead byte together with the continuation bytes that were accepted
    so far (or everything up to the end of the data when the data stops in
    the middle of a sequence), calls the handler, and resumes after the
    reported bytes. [on_error] is what the handler puts in the output:
    nothing for [errors="ignore"]. *)
Fixpoint decode_with (on_error : pystr) (bs : list N) : pystr :=
  match bs with
  | [] => []
  | b0 :: r0 =>
      if b0 <? 128 then b0 :: decode_with on_error r0
      else if (194 <=? b0) && (b0 <=? 223) then
        match r0 with
        | [] => on_error
        | b1 :: r1 =>
            if is_cont b1 then cp2 b0 b1 :: decode_with on_error r1
            else on_error ++ decode_with on_error r0
        end
      else if (224 <=? b0) && (b0 <=? 239) then
        match r0 with
        | [] => on_error
        | b1 :: r1 =>
            if second_ok3 b0 b1 then
              match r1 with
              | [] => on_error
              | b2 :: r2 =>
                  if is_cont b2 then cp3 b0 b1 b2 :: decode_with on_error r2
                  else on_error ++ decode_with on_error r1
              end
            else on_error ++ decode_with on_error r0
        end
      else if (240 <=? b0) && (b0 <=? 244) then
        match r0 with
        | [] => on_error
        | b1 :: r1 =>
            if second_ok4 b0 b1 then
              match r1 with
              | [] => on_error
              | b2 :: r2 =>
                  if is_cont b2 then
                    match r2 with
                    | [] => on_error
                    | b3 :: r3 =>
                        if is_cont b3 then
                          cp4 b0 b1 b2 b3 :: decode_with on_error r3
                        else on_error ++ decode_with on_error r2
                    end
                  else on_error ++ decode_with on_error r1
              end
            else on_error ++ decode_with on_error r0
        end
      else on_error ++ decode_with on_error r0
  end.

(** [bytes.decode("utf-8", errors="ignore")] *)
Definition decode_ignore (bs : list N) : pystr := decode_with [] bs.

(** Universal newlines, the default of [open(path, "r")]: CR LF and a
    lone CR are read as LF. *)
Fixpoint translate_newlines (s : pystr) : pystr :=
  match s with
  | [] => []
  | c :: r =>
      if c =? 13 then
        match r with
        | d :: r' => if d =? 10 then 10 :: translate_newlines r'
                     else 10 :: translate_newlines r
        | [] => [10]
        end
      else c :: translate_newlines r
  end.

(** [open(path, "r", encoding="utf-8", errors="ignore").read()] on a file
    with the given bytes. *)
Definition read_text (bs : list N) : pystr :=
  translate_newlines (decode_ignore bs).



(** *** Files with invalid bytes *)

(** A Unicode scalar value: a code point that is not a surrogate. *)
Definition scalar (c : N) : bool :=
  (c <? 55296) || (57344 <=? c) && (c <? 1114112).

(** The UTF-8 encoding of a scalar value. *)
Definition utf8 (c : N) : list N :=
  if c <? 128 then [c]
  else if c <? 2048 then [192 + c / 64; 128 + c mod 64]
  else if c <? 65536 then
    [224 + c / 4096; 128 + (c / 64) mod 64; 128 + c mod 64]
  else
    [240 + c / 262144; 128 + (c / 4096) mod 64; 128 + (c / 64) mod 64;
     128 + c mod 64].












End TextIO.

(* ===================================================================== *)
(** ** Python values, exceptions and the vector store's interface *)
(* ===================================================================== *)

Module Py.

(** The values a metadata field or a returned document can hold. A float
    is carried by its [repr], the only thing the code observes of it. *)
Inductive pyval :=
| PNone
| PBool (b : bool)
| PInt (i : Z)
| PFloat (repr : pystr)
| PStr (s : pystr).

(** [str(v)], what an f-string field [{v}] prints. *)
Definition str (v : pyval) : pystr :=
  match v with
  | PNone => lit "None"
  | PBool true => lit "True"
  | PBool false => lit "False"
  | PInt i => str_int i
  | PFloat r => r
  | PStr s => s
  end.

Inductive exn :=
| SystemExit (msg : pystr)
| AttributeError
| IndexError
| TypeError
| ValueError
| DuplicateIDError.

(** A computation that returns or raises. *)
Definition result (A : Type) : Type := exn + A.

Definition ret {A} (a : A) : result A := inr a.
Definition raise {A} (e : exn) : result A := inl e.
Definition bind {A B} (m : result A) (k : A -> result B) : result B :=
  match m with
  | inl e => inl e
  | inr a => k a
  end.

(** The dict [{"id": ..., "source_file": ..., "chunk_index": ...}] the
    retrieval functions build for each ranked result. *)
Record citation := Citation {
  cit_id : pystr;
  cit_source_file : pyval;
  cit_chunk_index : pyval
}.

End Py.

Import Py.

Notation "'let*' x := m 'in' k" := (Py.bind m (fun x => k))
  (at level 10, x pattern, m at level 100, k at level 200).

Module Chroma.

(** A metadata dict. *)
Abbreviation metadata := (gmap pystr pyval).

(** One entry of a result dict: the key may be absent, hold [None], or
    hold one row per query embedding. *)
Inductive field (A : Type) :=
| Missing
| NoneValue
| Rows (rows : list (list A)).
Arguments Missing {A}.
Arguments NoneValue {A}.
Arguments Rows {A} rows.

(** What [collection.query] returns. A document is a string or [None];
    a metadata entry is a dict, or [None] for a record stored without
    metadata. *)
Record query_result := QueryResult {
  documents : field pyval;
  metadatas : field (option metadata);
  ids : field pystr
}.

(** A stored record. *)
Record record (embedding : Type) := Record_ {
  rec_id : pystr;
  rec_document : pystr;
  rec_metadata : metadata;
  rec_embedding : embedding
}.
Arguments Record_ {embedding}.
Arguments rec_id {embedding}.
Arguments rec_document {embedding}.
Arguments rec_metadata {embedding}.
Arguments rec_embedding {embedding}.

(** The persistent store: collections by name. *)
Abbreviation store embedding := (gmap pystr (list (record embedding))).

Section Client.
Context {embedding : Type}.

(** [client.delete_collection(name)]: raises when there is none. *)
Definition delete_collection (name : pystr) (st : store embedding)
  : result unit * store embedding :=
  match st !! name with
  | Some _ => (ret tt, delete name st)
  | None => (raise ValueError, st)
  end.

(** [client.create_collection(name=name)]: raises when it exists. *)
Definition create_collection (name : pystr) (st : store embedding)
  : result unit * store embedding :=
  match st !! name with
  | Some _ => (raise ValueError, st)
  | None => (ret tt, <[name := []]> st)
  end.

Fixpoint zip4 (ids docs : list pystr) (metas : list metadata)
    (embs : list embedding) : list (record embedding) :=
  match ids, docs, metas, embs with
  | i :: ids', d :: docs', m :: metas', e :: embs' =>
      Record_ i d m e :: zip4 ids' docs' metas' embs'
  | _, _, _, _ => []
  end.

(** [client.get_max_batch_size()]: the most records one call may add
    (5461 with the default SQLite build). *)
Variable max_batch_size : nat.

(** [collection.add(ids=..., documents=..., metadatas=..., embeddings=...)]:
    the ids must be a non-empty list without duplicates, of no more than
    [max_batch_size] entries; the records are stored in one operation. *)
Definition add (name : pystr) (ids docs : list pystr) (metas : list metadata)
    (embs : list embedding) (st : store embedding)
  : result unit * store embedding :=
  match ids with
  | [] => (raise ValueError, st)
  | _ =>
      if bool_decide (NoDup ids) then
        if (max_batch_size <? length ids)%nat then (raise ValueError, st)
        else
          match st !! name with
          | Some rs => (ret tt, <[name := rs ++ zip4 ids docs metas embs]> st)
          | None => (raise ValueError, st)
          end
      else (raise DuplicateIDError, st)
  end.

End Client.

End Chroma.

Import Chroma.

(* ===================================================================== *)
(** ** build_index.py *)
(* ===================================================================== *)

Module BuildIndex.

Definition KB_DIR : pystr := lit "kb_docs".
Definition CHROMA_DIR : pystr := lit "chroma_db".
Definition COLLECTION_NAME : pystr := lit "fincorp_kb".

Definition CHUNK_SIZE : Z := 800.
Definition CHUNK_OVERLAP : Z := 150.

(** *** The file system *)

(** A directory lists its entries in the order [os.scandir] yields them. *)
#[local] Set Warnings "-register-all".
Inductive node :=
| File (content : list N)
| Dir (entries : list (pystr * node)).

Definition lookup_entry (name : pystr) (entries : list (pystr * node))
  : option node :=
  snd <$> List.find (fun e => bool_decide (fst e = name)) entries.

(** [os.path.isdir(name)] for a name relative to the working directory. *)
Definition isdir (cwd : list (pystr * node)) (name : pystr) : bool :=
  match lookup_entry name cwd with
  | Some (Dir _) => true
  | _ => false
  end.

(** [os.path.join(a, b)] for a relative [b]. *)
Definition path_join (a b : pystr) : pystr :=
  match a with
  | [] => b
  | _ => if bool_decide (last a = Some 47%N) then a ++ b else a ++ 47%N :: b
  end.

(** [os.path.basename(p)]: what follows the last slash. *)
Fixpoint basename_rev (r : pystr) : pystr :=
  match r with
  | [] => []
  | c :: r' => if (c =? 47)%N then [] else c :: basename_rev r'
  end.

Definition basename (p : pystr) : pystr := rev (basename_rev (rev p)).

(** [glob.glob(os.path.join(kb_dir, "*"))]: the entries of the directory
    whose name does not start with a dot, each under its joined path. A
    path stands for the entry it was listed from, so the node comes with
    it. No directory, no match. *)
Definition hidden (name : pystr) : bool :=
  match name with
  | c :: _ => (c =? 46)%N
  | [] => false
  end.

Definition glob_star (cwd : list (pystr * node)) (kb_dir : pystr)
  : list (pystr * node) :=
  match lookup_entry kb_dir cwd with
  | Some (Dir entries) =>
      map (fun e => (path_join kb_dir (fst e), snd e))
          (filter (fun e => hidden (fst e) = false) entries)
  | _ => []
  end.

(** [str.lower] on one code point, for the letters A to Z. No other code
    point lowers to a character of [".md"] or [".txt"], so the suffix
    test below sees the same as with the full Unicode mapping. *)
Definition lower_char (c : N) : N :=
  if ((65 <=? c) && (c <=? 90))%N then (c + 32)%N else c.

Definition lower (s : pystr) : pystr := map lower_char s.

Fixpoint startswith (s p : pystr) : bool :=
  match p, s with
  | [], _ => true
  | c :: p', d :: s' => (c =? d)%N && startswith s' p'
  | _ :: _, [] => false
  end.

(** [s.endswith(suffix)] *)
Definition endswith (s suffix : pystr) : bool :=
  startswith (rev s) (rev suffix).

(** *** Helpers *)

(** [file_hash(path)] on a file with the given bytes. *)
Definition file_hash (content : list N) : pystr :=
  take 16 (Sha256.hexdigest content).

Record doc := Doc {
  path : pystr;
  filename : pystr;
  text : pystr;
  hash : pystr
}.

(** The body of the loop of [load_docs] for one globbed path: [None] for
    [continue]. *)
Definition load_doc (e : pystr * node) : option doc :=
  match snd e with
  | Dir _ => None
  | File content =>
      if negb (endswith (lower (fst e)) (lit ".md")
               || endswith (lower (fst e)) (lit ".txt"))
      then None
      else
        let raw_text := TextIO.read_text content in
        if (length raw_text =? 0)%nat then None
        else Some (Doc (fst e) (basename (fst e)) raw_text (file_hash content))
  end.

Definition load_docs (cwd : list (pystr * node)) (kb_dir : pystr) : list doc :=
  omap load_doc (glob_star cwd kb_dir).

(** An entry of the knowledge-base directory that makes a document: a
    regular file whose name does not start with a dot and ends in [.md]
    or [.txt] in any case, and whose text is not empty. *)
Definition eligible (e : pystr * node) : bool :=
  match snd e with
  | Dir _ => false
  | File content =>
      negb (hidden (fst e))
      && (endswith (lower (fst e)) (lit ".md")
          || endswith (lower (fst e)) (lit ".txt"))
      && negb (length (TextIO.read_text content) =? 0)%nat
  end.


Section Chunker.
Variables size overlap : Z.

Local Open Scope Z_scope.

(** The [while] loop of [chunk_text] with the two constants as
    parameters; [None] when the fuel runs out. *)
Fixpoint chunk_loop (text : pystr) (fuel : nat) (start : Z)
    (chunks : list pystr) : option (list pystr) :=
  let n := Z.of_nat (length text) in
  if start <? n then
    match fuel with
    | O => None
    | S fuel' =>
        let end_ := Z.min (start + size) n in
        let chunk := strip (slice text start end_) in
        let chunks := if truthy chunk then chunks ++ [chunk] else chunks in
        let start := end_ - overlap in
        let start := if start <? 0 then 0 else start in
        if end_ =? n then Some chunks
        else chunk_loop text fuel' start chunks
    end
  else Some chunks.

Definition chunk_text_with (fuel : nat) (text : pystr) : option (list pystr) :=
  chunk_loop text fuel 0 [].

(** The same loop on a text of length [n], recording the window
    [(start, end)] of each iteration instead of its chunk. *)
Fixpoint window_loop (n : Z) (fuel : nat) (start : Z)
  : option (list (Z * Z)) :=
  if start <? n then
    match fuel with
    | O => None
    | S fuel' =>
        let end_ := Z.min (start + size) n in
        let start' := end_ - overlap in
        let start' := if start' <? 0 then 0 else start' in
        if end_ =? n then Some [(start, end_)]
        else cons (start, end_) <$> window_loop n fuel' start'
    end
  else Some [].

Definition chunk_windows (fuel : nat) (n : Z) : option (list (Z * Z)) :=
  window_loop n fuel 0.

(** The chunk a window contributes, if any. *)
Definition window_chunk (text : pystr) (w : Z * Z) : option pystr :=
  let chunk := strip (slice text (fst w) (snd w)) in
  if truthy chunk then Some chunk else None.

End Chunker.

(** [chunk_text(text)]: the loop runs at most once per character. *)
Definition chunk_text (text : pystr) : option (list pystr) :=
  chunk_text_with CHUNK_SIZE CHUNK_OVERLAP (length text) text.

(** *** main *)

(** The three lists [main] fills for one document. *)
Definition chunk_id (d : doc) (i : nat) : pystr :=
  filename d ++ lit "::" ++ hash d ++ lit "::" ++ str_int (Z.of_nat i).

Definition chunk_metadata (d : doc) (i : nat) : metadata :=
  <[lit "source_file" := PStr (filename d)]>
    (<[lit "source_path" := PStr (path d)]>
       (<[lit "chunk_index" := PInt (Z.of_nat i)]> ∅)).

Definition doc_rows (d : doc) (chunks : list pystr)
  : list (pystr * pystr * metadata) :=
  imap (fun i chunk => (chunk_id d i, chunk, chunk_metadata d i)) chunks.

(** The loop over the documents; [None] when some [chunk_text] call does
    not return. *)
Fixpoint collect (docs : list doc) : option (list (pystr * pystr * metadata)) :=
  match docs with
  | [] => Some []
  | d :: docs' =>
      match chunk_text (text d) with
      | None => None
      | Some chunks =>
          match collect docs' with
          | None => None
          | Some rows => Some (doc_rows d chunks ++ rows)
          end
      end
  end.

Definition msg_no_dir : pystr :=
  10060%N :: lit " KB directory not found: " ++ KB_DIR.

Definition msg_no_docs : pystr :=
  10060%N :: lit " No documents found (or all empty).".

Section Main.
Context {embedding : Type}.
(** [model.encode(texts).tolist()] *)
Variable encode : list pystr -> list embedding.
(** The batch limit of the client that [main] opens. *)
Variable max_batch_size : nat.

(** [main()], run in working directory [cwd] on the store [st]. The
    result is what it raises or returns together with the store it
    leaves; [None] when it does not return. *)
Definition main (cwd : list (pystr * node)) (st : store embedding)
  : option (result unit * store embedding) :=
  if negb (isdir cwd KB_DIR) then Some (raise (SystemExit msg_no_dir), st)
  else
    let docs := load_docs cwd KB_DIR in
    match docs with
    | [] => Some (raise (SystemExit msg_no_docs), st)
    | _ =>
        match collect docs with
        | None => None
        | Some rows =>
            let ids := map (fun r => fst (fst r)) rows in
            let texts := map (fun r => snd (fst r)) rows in
            let metadatas := map snd rows in
            let embeddings := encode texts in
            (* try: client.delete_collection(...) except Exception: pass *)
            let st := snd (delete_collection COLLECTION_NAME st) in
            match create_collection COLLECTION_NAME st with
            | (inl e, st) => Some (inl e, st)
            | (inr _, st) =>
                Some (add max_batch_size COLLECTION_NAME ids texts metadatas
                        embeddings st)
            end
        end
    end.

End Main.

End BuildIndex.

(* ===================================================================== *)
(** ** geminitestv1.py: local retrieval *)
(* ===================================================================== *)

Module Geminitestv1.

Definition TOP_K : Z := 4.

(** [results.get(key, [[]])[0]] *)
Definition first_row {A} (f : field A) : result (list A) :=
  match f with
  | Missing => ret []
  | NoneValue => raise TypeError
  | Rows [] => raise IndexError
  | Rows (row :: _) => ret row
  end.

(** [meta.get(key, default)] on a metadata entry; [None] has no [get]. *)
Definition meta_get (meta : option metadata) (key : pystr) (default : pyval)
  : result pyval :=
  match meta with
  | None => raise AttributeError
  | Some d => ret (match d !! key with Some v => v | None => default end)
  end.

(** The block of rank [i]:
    [f"[{i+1}] (source: {source_file}, chunk: {chunk_index})\n{doc}"] *)
Definition context_block (i : nat) (source_file chunk_index doc : pyval) : pystr :=
  lit "[" ++ str_int (Z.of_nat i + 1) ++ lit "] (source: " ++ str source_file
  ++ lit ", chunk: " ++ str chunk_index ++ lit ")" ++ [10%N] ++ str doc.

(** The body of the [for] loop for rank [i]. *)
Definition rank_step (metas : list (option metadata)) (ids : list pystr)
    (i : nat) (doc : pyval) : result (citation * pystr) :=
  let meta := match metas !! i with Some m => m | None => Some ∅ end in
  let cid := match ids !! i with
             | Some c => c
             | None => lit "chunk_" ++ str_int (Z.of_nat i)
             end in
  let* source_file := meta_get meta (lit "source_file") (PStr (lit "unknown")) in
  let* chunk_index := meta_get meta (lit "chunk_index") (PInt (Z.of_nat i)) in
  ret (Citation cid source_file chunk_index,
       context_block i source_file chunk_index doc).

(** [for i, doc in enumerate(docs)], from rank [i] on. *)
Fixpoint rank_loop (metas : list (option metadata)) (ids : list pystr)
    (i : nat) (docs : list pyval)
    (citations : list citation) (context_blocks : list pystr)
  : result (list citation * list pystr) :=
  match docs with
  | [] => ret (citations, context_blocks)
  | doc :: docs' =>
      let* cb := rank_step metas ids i doc in
      rank_loop metas ids (S i) docs'
        (citations ++ [fst cb]) (context_blocks ++ [snd cb])
  end.

Definition block_separator : pystr := [10; 10; 45; 45; 45; 10; 10]%N.

Section Retrieval.
Context {embedding : Type}.
(** [model.encode([query])[0].tolist()] *)
Variable encode : pystr -> embedding.
(** [collection.query(query_embeddings=[q_emb], n_results=top_k,
    include=["documents", "metadatas"])] on the loaded collection. *)
Variable collection_query : embedding -> Z -> query_result.

Definition retrieve_context (query : pystr) (top_k : Z)
  : result (pystr * list citation) :=
  let q_emb := encode query in
  let results := collection_query q_emb top_k in
  let* docs := first_row (documents results) in
  let* metas := first_row (metadatas results) in
  let* ids := first_row (ids results) in
  let* cb := rank_loop metas ids 0 docs [] [] in
  let context_text := strip (join block_separator (snd cb)) in
  ret (context_text, fst cb).

End Retrieval.


(** The fixed parts of the prompt of [build_rag_prompt]. *)
Definition prompt_head : pystr :=
  lit "You are FinCorp Safe-Chat." ++ [10; 10]%N
  ++ lit "Use the provided knowledge base context to answer the user's question."
  ++ [10]%N
  ++ lit "Rules:" ++ [10]%N
  ++ lit "- Use ONLY the context below for factual claims about FinCorp policies/products."
  ++ [10]%N
  ++ lit "- If the answer is not in the context, say: " ++ [34]%N
  ++ lit "I don't have that in the provided knowledge base." ++ [34; 10]%N
  ++ lit "- Keep the answer concise and professional." ++ [10]%N
  ++ lit "- If you reference context, cite it using [1], [2], etc." ++ [10; 10]%N
  ++ lit "KNOWLEDGE BASE CONTEXT:" ++ [10]%N.

Definition prompt_middle : pystr := [10; 10]%N ++ lit "USER QUESTION:" ++ [10]%N.

(** [build_rag_prompt(user_question, context_text)] *)
Definition build_rag_prompt (user_question context_text : pystr) : pystr :=
  if negb (truthy context_text) then user_question
  else prompt_head ++ context_text ++ prompt_middle ++ user_question ++ [10]%N.

Section Enrichment.
Context {embedding : Type}.
Variable encode : pystr -> embedding.
Variable collection_query : embedding -> Z -> query_result.

(** The prompt the interface sends for a user text. With the knowledge
    base switched on: [context, citations = retrieve_context(text, TOP_K)]
    then [build_rag_prompt(text, context)]; the text itself otherwise. *)
Definition enriched_prompt (use_rag : bool) (text : pystr) : result pystr :=
  if use_rag then
    let* r := retrieve_context encode collection_query text TOP_K in
    ret (build_rag_prompt text (fst r))
  else ret text.

End Enrichment.

End Geminitestv1.

(* ===================================================================== *)
(** ** geminitestv2.py: local retrieval *)
(* ===================================================================== *)

Module Geminitestv2.

Definition TOP_K : Z := 4.

(** [results.get(key, [[]])[0]] *)
Definition first_row {A} (f : field A) : result (list A) :=
  match f with
  | Missing => ret []
  | NoneValue => raise TypeError
  | Rows [] => raise IndexError
  | Rows (row :: _) => ret row
  end.

(** [meta.get(key, default)] on a metadata entry; [None] has no [get]. *)
Definition meta_get (meta : option metadata) (key : pystr) (default : pyval)
  : result pyval :=
  match meta with
  | None => raise AttributeError
  | Some d => ret (match d !! key with Some v => v | None => default end)
  end.

(** The block of rank [i]:
    [f"[{i+1}] (source: {source_file}, chunk: {chunk_index})\n{doc}"] *)
Definition context_block (i : nat) (source_file chunk_index doc : pyval) : pystr :=
  lit "[" ++ str_int (Z.of_nat i + 1) ++ lit "] (source: " ++ str source_file
  ++ lit ", chunk: " ++ str chunk_index ++ lit ")" ++ [10%N] ++ str doc.

(** The body of the [for] loop for rank [i]. *)
Definition rank_step (metas : list (option metadata)) (ids : list pystr)
    (i : nat) (doc : pyval) : result (citation * pystr) :=
  let meta := match metas !! i with Some m => m | None => Some ∅ end in
  let cid := match ids !! i with
             | Some c => c
             | None => lit "chunk_" ++ str_int (Z.of_nat i)
             end in
  let* source_file := meta_get meta (lit "source_file") (PStr (lit "unknown")) in
  let* chunk_index := meta_get meta (lit "chunk_index") (PInt (Z.of_nat i)) in
  ret (Citation cid source_file chunk_index,
       context_block i source_file chunk_index doc).

(** [for i, doc in enumerate(docs)], from rank [i] on. *)
Fixpoint rank_loop (metas : list (option metadata)) (ids : list pystr)
    (i : nat) (docs : list pyval)
    (citations : list citation) (context_blocks : list pystr)
  : result (list citation * list pystr) :=
  match docs with
  | [] => ret (citations, context_blocks)
  | doc :: docs' =>
      let* cb := rank_step metas ids i doc in
      rank_loop metas ids (S i) docs'
        (citations ++ [fst cb]) (context_blocks ++ [snd cb])
  end.

Definition block_separator : pystr := [10; 10; 45; 45; 45; 10; 10]%N.

Section Retrieval.
Context {embedding : Type}.
(** [model.encode([query])[0].tolist()] *)
Variable encode : pystr -> embedding.
(** [collection.query(query_embeddings=[q_emb], n_results=top_k,
    include=["documents", "metadatas"])] on the loaded collection. *)
Variable collection_query : embedding -> Z -> query_result.

Definition retrieve_context (query : pystr) (top_k : Z)
  : result (pystr * list citation) :=
  let q_emb := encode query in
  let results := collection_query q_emb top_k in
  let* docs := first_row (documents results) in
  let* metas := first_row (metadatas results) in
  let* ids := first_row (ids results) in
  let* cb := rank_loop metas ids 0 docs [] [] in
  let context_text := strip (join block_separator (snd cb)) in
  ret (context_text, fst cb).

End Retrieval.


(** The fixed parts of the prompt of [build_rag_prompt]. *)
Definition prompt_head : pystr :=
  lit "You are FinCorp Safe-Chat." ++ [10; 10]%N
  ++ lit "Use the provided knowledge base context to answer the user's question."
  ++ [10]%N
  ++ lit "Rules:" ++ [10]%N
  ++ lit "- Use ONLY the context below for factual claims about FinCorp policies/products."
  ++ [10]%N
  ++ lit "- If the answer is not in the context, say: " ++ [34]%N
  ++ lit "I don't have that in the provided knowledge base." ++ [34; 10]%N
  ++ lit "- Keep the answer concise and professional." ++ [10]%N
  ++ lit "- If you reference context, cite it using [1], [2], etc." ++ [10; 10]%N
  ++ lit "KNOWLEDGE BASE CONTEXT:" ++ [10]%N.

Definition prompt_middle : pystr := [10; 10]%N ++ lit "USER QUESTION:" ++ [10]%N.

(** [build_rag_prompt(user_question, context_text)] *)
Definition build_rag_prompt (user_question context_text : pystr) : pystr :=
  if negb (truthy context_text) then user_question
  else prompt_head ++ context_text ++ prompt_middle ++ user_question ++ [10]%N.

Section Enrichment.
Context {embedding : Type}.
Variable encode : pystr -> embedding.
Variable collection_query : embedding -> Z -> query_result.

(** The prompt the interface sends for a user text. With the knowledge
    base switched on: [context, citations = retrieve_context(text, TOP_K)]
    then [build_rag_prompt(text, context)]; the text itself otherwise. *)
Definition enriched_prompt (use_rag : bool) (text : pystr) : result pystr :=
  if use_rag then
    let* r := retrieve_context encode collection_query text TOP_K in
    ret (build_rag_prompt text (fst r))
  else ret text.

End Enrichment.

End Geminitestv2.

(* ===================================================================== *)
(** ** Sample data *)
(* ===================================================================== *)

Module Samples.

(** A store answer with two ranked results: the first with full
    metadata, the second with an empty metadata dict. *)
Definition two_results : query_result :=
  QueryResult
    (Rows [[PStr (lit "Fees are waived."); PStr (lit "Cards are free.")]])
    (Rows [[Some (<[lit "source_file" := PStr (lit "fees.md")]>
                    (<[lit "chunk_index" := PInt 3]> ∅));
            Some ∅]])
    (Rows [[lit "fees.md::0123456789abcdef::3"; lit "cards.md::fedcba9876543210::0"]]).

(** A store answer whose only result was stored without metadata. *)
Definition result_without_metadata : query_result :=
  QueryResult (Rows [[PStr (lit "text")]]) (Rows [[None]]) (Rows [[lit "id1"]]).

(** A knowledge-base directory without any eligible document: a hidden
    file, a file of another type, an empty text file, a file holding
    only an invalid byte, and a directory with a text-file name. *)
Definition barren_entries : list (pystr * BuildIndex.node) :=
  [(lit ".notes.md", BuildIndex.File [104; 105]%N);
   (lit "rates.pdf", BuildIndex.File [104; 105]%N);
   (lit "empty.txt", BuildIndex.File []);
   (lit "broken.TXT", BuildIndex.File [255]%N);
   (lit "archive.md", BuildIndex.Dir [])].

Definition barren_cwd : list (pystr * BuildIndex.node) :=
  [(lit "build_index.py", BuildIndex.File []);
   (BuildIndex.KB_DIR, BuildIndex.Dir barren_entries)].

(** A knowledge-base directory with two documents of the same content,
    a hidden file and a sub-directory. *)
Definition small_entries : list (pystr * BuildIndex.node) :=
  [(lit "fees.md", BuildIndex.File (lit "Fees are waived."));
   (lit "copy::fees.TXT", BuildIndex.File (lit "Fees are waived."));
   (lit ".cache", BuildIndex.File []);
   (lit "old", BuildIndex.Dir [])].


(** The batch limit of a client with the default build. *)
Definition batch_limit : nat := N.to_nat 5461.

Definition small_cwd : list (pystr * BuildIndex.node) :=
  [(BuildIndex.KB_DIR, BuildIndex.Dir small_entries)].

(** A knowledge-base directory whose only document is white space. *)
Definition blank_cwd : list (pystr * BuildIndex.node) :=
  [(BuildIndex.KB_DIR,
    BuildIndex.Dir [(lit "blank.md", BuildIndex.File [32; 10; 32; 10]%N)])].

(** The three rows of [two_results]. *)
Definition two_docs : list pyval :=
  [PStr (lit "Fees are waived."); PStr (lit "Cards are free.")].

Definition two_metas : list (option metadata) :=
  [Some (<[lit "source_file" := PStr (lit "fees.md")]>
           (<[lit "chunk_index" := PInt 3]> ∅));
   Some ∅].

Definition two_ids : list pystr :=
  [lit "fees.md::0123456789abcdef::3"; lit "cards.md::fedcba9876543210::0"].

End Samples.

(* ===================================================================== *)
(** * Properties *)
(* ===================================================================== *)

(** ** Strings *)

Module PyStrFacts.

Lemma lstrip_length (s : pystr) : length (lstrip s) <= length s.
Proof.
  induction s as [|c s IH]; simpl; [lia|].
  destruct (isspace c); simpl; lia.
Qed.

Lemma lstrip_head (s : pystr) :
  lstrip s = [] \/ exists c r, lstrip s = c :: r /\ isspace c = false.
Proof.
  induction s as [|c s IH]; simpl; [now left|].
  destruct (isspace c) eqn:E; [exact IH|].
  right. now exists c, s.
Qed.

Lemma lstrip_fixed (c : N) (s : pystr) :
  isspace c = false -> lstrip (c :: s) = c :: s.
Proof. intros E. simpl. now rewrite E. Qed.

Lemma lstrip_idem (s : pystr) : lstrip (lstrip s) = lstrip s.
Proof.
  destruct (lstrip_head s) as [E | (c & r & E & Hc)]; rewrite E; [reflexivity|].
  now apply lstrip_fixed.
Qed.

Lemma lstrip_snoc (s : pystr) (c : N) :
  isspace c = false -> lstrip (s ++ [c]) = lstrip s ++ [c].
Proof.
  intros Hc. induction s as [|d s IH]; simpl.
  - now rewrite Hc.
  - destruct (isspace d); [exact IH | reflexivity].
Qed.

Lemma rstrip_length (s : pystr) : length (rstrip s) <= length s.
Proof.
  unfold rstrip. rewrite length_rev.
  etransitivity; [apply lstrip_length|]. now rewrite length_rev.
Qed.

Lemma rstrip_cons (c : N) (s : pystr) :
  isspace c = false -> rstrip (c :: s) = c :: rstrip s.
Proof.
  intros Hc. unfold rstrip. simpl rev.
  rewrite lstrip_snoc by exact Hc. rewrite rev_app_distr. reflexivity.
Qed.

Lemma rstrip_idem (s : pystr) : rstrip (rstrip s) = rstrip s.
Proof. unfold rstrip. now rewrite rev_involutive, lstrip_idem. Qed.

Lemma strip_length (s : pystr) : length (strip s) <= length s.
Proof.
  unfold strip. etransitivity; [apply rstrip_length | apply lstrip_length].
Qed.

(** A stripped string is empty or starts with a character that is not
    white space. *)
Lemma strip_head (s : pystr) :
  strip s = [] \/ exists c r, strip s = c :: r /\ isspace c = false.
Proof.
  unfold strip.
  destruct (lstrip_head s) as [E | (c & r & E & Hc)]; rewrite E.
  - now left.
  - right. exists c, (rstrip r). split; [now apply rstrip_cons | exact Hc].
Qed.

Lemma strip_idem (s : pystr) : strip (strip s) = strip s.
Proof.
  destruct (strip_head s) as [E | (c & r & E & Hc)].
  - rewrite E. reflexivity.
  - unfold strip at 1. rewrite E, (lstrip_fixed c r Hc), <- E.
    unfold strip. apply rstrip_idem.
Qed.

Lemma adjust_index_nonneg (n i : Z) :
  (0 <= n)%Z -> (0 <= i)%Z -> adjust_index n i = Z.min i n.
Proof.
  intros Hn Hi. unfold adjust_index.
  assert (E : (i <? 0)%Z = false) by (apply Z.ltb_ge; exact Hi).
  cbv zeta. rewrite !E.
  destruct (Z.ltb_spec n i); lia.
Qed.

(** A slice with bounds that are not negative is no longer than their
    distance. *)
Lemma slice_length (s : pystr) (lo hi : Z) :
  (0 <= lo)%Z -> (0 <= hi)%Z ->
  (Z.of_nat (length (slice s lo hi)) <= Z.max 0 (hi - lo))%Z.
Proof.
  intros Hlo Hhi. unfold slice.
  rewrite !adjust_index_nonneg by lia.
  rewrite length_take. lia.
Qed.

Lemma truthy_nonempty (s : pystr) : truthy s = true <-> s <> [].
Proof. destruct s; simpl; split; congruence. Qed.

End PyStrFacts.

(** ** The chunker *)

Module ChunkerFacts.

Import BuildIndex PyStrFacts.

Section Windows.
Variables size overlap : Z.

Local Open Scope Z_scope.

(** The chunks are those of the recorded windows, in order. *)
Lemma chunk_loop_windows (text : pystr) (fuel : nat) (start : Z)
    (chunks : list pystr) :
  chunk_loop size overlap text fuel start chunks
  = (fun ws : list (Z * Z) => chunks ++ omap (window_chunk text) ws)
      <$> window_loop size overlap (Z.of_nat (length text)) fuel start.
Proof.
  revert start chunks.
  induction fuel as [|fuel IH]; intros start chunks; simpl.
  - destruct (start <? _); simpl; [reflexivity | now rewrite app_nil_r].
  - destruct (start <? _); simpl; [|now rewrite app_nil_r].
    set (e := Z.min (start + size) (Z.of_nat (length text))).
    destruct (e =? _).
    + simpl. unfold window_chunk. simpl.
      destruct (truthy _); [reflexivity | now rewrite app_nil_r].
    + rewrite IH. rewrite <- option_fmap_compose.
      apply option_fmap_ext. intros ws. simpl.
      unfold window_chunk at 2. simpl.
      destruct (truthy _); [now rewrite <- app_assoc | reflexivity].
Qed.

Lemma chunk_text_windows (text : pystr) (fuel : nat) :
  chunk_text_with size overlap fuel text
  = (fun ws : list (Z * Z) => omap (window_chunk text) ws)
      <$> chunk_windows size overlap fuel (Z.of_nat (length text)).
Proof. unfold chunk_text_with, chunk_windows. now rewrite chunk_loop_windows. Qed.

(** With [overlap < size] every iteration that does not end the loop
    moves [start] forward, so [n - start] iterations are enough. *)
Lemma window_loop_terminates (n : Z) (fuel : nat) (start : Z) :
  overlap < size -> 0 <= start -> n - start <= Z.of_nat fuel ->
  is_Some (window_loop size overlap n fuel start).
Proof.
  intros Hos. revert start.
  induction fuel as [|fuel IH]; intros start H0 Hf; simpl.
  - destruct (Z.ltb_spec start n); [lia | eauto].
  - destruct (Z.ltb_spec start n); [|eauto].
    destruct (Z.eqb_spec (Z.min (start + size) n) n); [eauto|].
    apply fmap_is_Some, IH.
    + destruct (Z.ltb_spec (Z.min (start + size) n - overlap) 0); lia.
    + destruct (Z.ltb_spec (Z.min (start + size) n - overlap) 0); lia.
Qed.

(** More fuel does not change a result. *)
Lemma window_loop_fuel (n : Z) (fuel fuel' : nat) (start : Z) ws :
  window_loop size overlap n fuel start = Some ws -> (fuel <= fuel')%nat ->
  window_loop size overlap n fuel' start = Some ws.
Proof.
  revert fuel' start ws.
  induction fuel as [|fuel IH]; intros fuel' start ws; simpl.
  - destruct (Z.ltb_spec start n); [discriminate|].
    intros Hw _. destruct fuel'; simpl; destruct (Z.ltb_spec start n); (lia || exact Hw).
  - destruct (Z.ltb_spec start n) as [Hlt|Hge].
    + intros Hw Hle. destruct fuel' as [|fuel']; [lia|]. simpl.
      destruct (Z.ltb_spec start n); [|lia].
      destruct (Z.eqb_spec (Z.min (start + size) n) n); [exact Hw|].
      destruct (window_loop size overlap n fuel _) as [ws'|] eqn:E; [|discriminate].
      rewrite (IH fuel' _ ws' E); [exact Hw | lia].
    + intros Hw _. destruct fuel'; simpl; destruct (Z.ltb_spec start n); (lia || exact Hw).
Qed.

(** Each window starts inside the text and is [size] long, clipped to
    the end of the text. *)
Lemma window_loop_bounds (n : Z) (fuel : nat) (start : Z) ws :
  0 <= start -> window_loop size overlap n fuel start = Some ws ->
  Forall (fun w => 0 <= fst w < n /\ snd w = Z.min (fst w + size) n) ws.
Proof.
  revert start ws.
  induction fuel as [|fuel IH]; intros start ws H0; simpl.
  - destruct (Z.ltb_spec start n); [discriminate|]. intros [= <-]. constructor.
  - destruct (Z.ltb_spec start n); [|intros [= <-]; constructor].
    destruct (Z.eqb_spec (Z.min (start + size) n) n).
    + intros [= <-]. repeat constructor; simpl; lia.
    + destruct (window_loop _ _ _ _ _) as [ws'|] eqn:E; [|discriminate].
      intros [= <-]. constructor; [simpl; lia|].
      eapply IH; [|exact E].
      destruct (Z.ltb_spec (Z.min (start + size) n - overlap) 0); lia.
Qed.

(** The first window starts where the loop starts. *)
Lemma window_loop_head (n : Z) (fuel : nat) (start : Z) w ws :
  window_loop size overlap n fuel start = Some (w :: ws) -> fst w = start.
Proof.
  destruct fuel; simpl; destruct (Z.ltb_spec start n); try discriminate.
  destruct (Z.eqb_spec (Z.min (start + size) n) n).
  - now intros [= <- _].
  - destruct (window_loop _ _ _ _ _); [|discriminate]. now intros [= <- _].
Qed.

(** With an overlap that is not negative the loop stops at the first
    window whose end is the end of the text: that window is the last one
    and no earlier window reaches the end. *)
Lemma window_loop_shape (n : Z) (fuel : nat) (start : Z) ws :
  0 <= overlap -> 0 <= start ->
  window_loop size overlap n fuel start = Some ws ->
  (ws = [] /\ n <= start)
  \/ exists init s, ws = init ++ [(s, n)] /\ Forall (fun w => snd w < n) init.
Proof.
  intros Ho. revert start ws.
  induction fuel as [|fuel IH]; intros start ws H0; simpl.
  - destruct (Z.ltb_spec start n); [discriminate|]. intros [= <-]. now left.
  - destruct (Z.ltb_spec start n); [|intros [= <-]; now left].
    destruct (Z.eqb_spec (Z.min (start + size) n) n) as [He|Hne].
    + intros [= <-]. right. exists [], start. rewrite He. now split.
    + destruct (window_loop _ _ _ _ _) as [ws'|] eqn:E; [|discriminate].
      intros [= <-]. right.
      assert (Hs : 0 <= (if Z.min (start + size) n - overlap <? 0 then 0
                         else Z.min (start + size) n - overlap))
        by (destruct (Z.ltb_spec (Z.min (start + size) n - overlap) 0); lia).
      destruct (IH _ _ Hs E) as [[-> Hge] | (init & s & -> & Hinit)].
      * exfalso.
        destruct (Z.ltb_spec (Z.min (start + size) n - overlap) 0); lia.
      * exists ((start, Z.min (start + size) n) :: init), s. split; [reflexivity|].
        constructor; [simpl; lia | exact Hinit].
Qed.

(** Every position from [start] on lies in some window. *)
Lemma window_loop_cover (n : Z) (fuel : nat) (start : Z) ws :
  0 <= overlap < size -> 0 <= start ->
  window_loop size overlap n fuel start = Some ws ->
  forall p, start <= p < n -> exists w, w ∈ ws /\ fst w <= p < snd w.
Proof.
  intros Hos. revert start ws.
  induction fuel as [|fuel IH]; intros start ws H0; simpl.
  - destruct (Z.ltb_spec start n); [discriminate|]. intros _ p Hp. lia.
  - destruct (Z.ltb_spec start n); [|intros _ p Hp; lia].
    destruct (Z.eqb_spec (Z.min (start + size) n) n) as [He|Hne].
    + intros [= <-] p Hp. exists (start, Z.min (start + size) n).
      split; [apply list_elem_of_singleton; reflexivity | simpl; lia].
    + destruct (window_loop _ _ _ _ _) as [ws'|] eqn:E; [|discriminate].
      intros [= <-] p Hp.
      destruct (Z.ltb_spec (Z.min (start + size) n - overlap) 0); [lia|].
      destruct (Z_lt_le_dec p (Z.min (start + size) n)) as [Hlt|Hge].
      * exists (start, Z.min (start + size) n).
        split; [apply list_elem_of_here | simpl; lia].
      * assert (Hs : 0 <= Z.min (start + size) n - overlap) by lia.
        assert (Hp' : Z.min (start + size) n - overlap <= p < n) by lia.
        destruct (IH _ _ Hs E p Hp') as (w & Hw & Hpw).
        exists w. split; [now apply list_elem_of_further | exact Hpw].
Qed.

(** Two consecutive windows: the second starts [overlap] characters
    before the end of the first, and ends after it. *)
Lemma window_loop_adjacent (n : Z) (fuel : nat) (start : Z) ws :
  0 <= overlap < size -> 0 <= start ->
  window_loop size overlap n fuel start = Some ws ->
  forall i w1 w2, ws !! i = Some w1 -> ws !! S i = Some w2 ->
    fst w1 < fst w2 /\ fst w2 = snd w1 - overlap /\ snd w1 < snd w2.
Proof.
  intros Hos. revert start ws.
  induction fuel as [|fuel IH]; intros start ws H0; simpl.
  - destruct (Z.ltb_spec start n); [discriminate|]. intros [= <-] i w1 w2 Hi; discriminate.
  - destruct (Z.ltb_spec start n); [|intros [= <-] i w1 w2 Hi; discriminate].
    destruct (Z.eqb_spec (Z.min (start + size) n) n) as [He|Hne].
    + intros [= <-] i w1 w2 _ Hi. discriminate.
    + destruct (window_loop _ _ _ _ _) as [ws'|] eqn:E; [|discriminate].
      intros [= <-] i w1 w2 H1 H2.
      destruct (Z.ltb_spec (Z.min (start + size) n - overlap) 0); [lia|].
      destruct i as [|i]; simpl in H1, H2.
      * injection H1 as <-. destruct ws' as [|w ws'']; [discriminate|].
        injection H2 as ->.
        pose proof (window_loop_head _ _ _ _ _ E) as Hh.
        assert (Hs : 0 <= Z.min (start + size) n - overlap) by lia.
        pose proof (window_loop_bounds _ _ _ _ Hs E) as Hb.
        apply Forall_cons in Hb as [[Hb1 Hb2] _].
        simpl. lia.
      * assert (Hs : 0 <= Z.min (start + size) n - overlap) by lia.
        exact (IH _ _ Hs E i w1 w2 H1 H2).
Qed.

End Windows.

Local Open Scope Z_scope.

(** The chunks of a terminating run are those of its windows. *)
Lemma chunk_text_run (size overlap : Z) (text : pystr) (fuel : nat) :
  overlap < size -> (length text <= fuel)%nat ->
  exists ws,
    chunk_windows size overlap fuel (Z.of_nat (length text)) = Some ws
    /\ chunk_text_with size overlap fuel text
       = Some (omap (window_chunk text) ws).
Proof.
  intros Hos Hf.
  destruct (window_loop_terminates size overlap (Z.of_nat (length text)) fuel 0)
    as [ws Hws]; [exact Hos | lia | lia |].
  exists ws. split; [exact Hws|].
  rewrite chunk_text_windows. unfold chunk_windows. now rewrite Hws.
Qed.

(** C9: with the overlap strictly below the chunk size the loop
    terminates on every text, within one iteration per character. With an
    overlap that is also not negative, it ends at the first window whose
    end is the length of the text: that window is the last, it may be
    shorter than the chunk size, and no earlier window reaches the end. *)
Theorem chunk_text_terminates (size overlap : Z) (text : pystr) (fuel : nat) :
  overlap < size -> (length text <= fuel)%nat ->
  exists chunks ws,
    chunk_text_with size overlap fuel text = Some chunks
    /\ chunk_windows size overlap fuel (Z.of_nat (length text)) = Some ws
    /\ chunks = omap (window_chunk text) ws
    /\ (0 <= overlap ->
        (ws = [] /\ text = [])
        \/ exists init s,
             ws = init ++ [(s, Z.of_nat (length text))]
             /\ Forall (fun w => snd w < Z.of_nat (length text)) init).
Proof.
  intros Hos Hf.
  destruct (chunk_text_run size overlap text fuel Hos Hf) as (ws & Hws & Hc).
  exists (omap (window_chunk text) ws), ws.
  repeat split; [exact Hc | exact Hws |].
  intros Ho.
  destruct (window_loop_shape size overlap _ _ _ _ Ho (Z.le_refl 0) Hws)
    as [[-> Hn] | Hlast].
  - left. split; [reflexivity|]. destruct text; [reflexivity | simpl in Hn; lia].
  - right. exact Hlast.
Qed.

Lemma chunk_text_terminates_witness :
  exists chunks ws,
    chunk_text_with 10 3 15 (lit "AAAAABBBBBCCCCC") = Some chunks
    /\ chunk_windows 10 3 15 (Z.of_nat (length (lit "AAAAABBBBBCCCCC"))) = Some ws
    /\ chunks = omap (window_chunk (lit "AAAAABBBBBCCCCC")) ws
    /\ (0 <= 3 ->
        (ws = [] /\ lit "AAAAABBBBBCCCCC" = [])
        \/ exists init s,
             ws = init ++ [(s, Z.of_nat (length (lit "AAAAABBBBBCCCCC")))]
             /\ Forall (fun w => snd w < Z.of_nat (length (lit "AAAAABBBBBCCCCC")))
                  init).
Proof.
  apply (chunk_text_terminates 10 3 (lit "AAAAABBBBBCCCCC") 15);
    [lia | simpl; lia].
Defined.

(** C1: for a text of length [n] and [0 <= overlap < size], the windows
    of the chunker lie inside [0, n), every position of [0, n) is in some
    window, and of two consecutive windows the second starts exactly
    [overlap] characters before the end of the first and ends after it:
    they share exactly [overlap] characters and leave no gap. *)
Theorem chunk_coverage (size overlap : Z) (text : pystr) (fuel : nat) :
  0 <= overlap < size -> (length text <= fuel)%nat ->
  exists ws,
    chunk_windows size overlap fuel (Z.of_nat (length text)) = Some ws
    /\ chunk_text_with size overlap fuel text
       = Some (omap (window_chunk text) ws)
    /\ Forall (fun w => 0 <= fst w < snd w
                       /\ snd w = Z.min (fst w + size) (Z.of_nat (length text))) ws
    /\ (forall p, 0 <= p < Z.of_nat (length text) ->
          exists w, w ∈ ws /\ fst w <= p < snd w)
    /\ (forall i w1 w2, ws !! i = Some w1 -> ws !! S i = Some w2 ->
          fst w1 < fst w2 /\ fst w2 <= snd w1 /\ snd w1 < snd w2
          /\ snd w1 - fst w2 = overlap).
Proof.
  intros Hos Hf.
  destruct (chunk_text_run size overlap text fuel (proj2 Hos) Hf)
    as (ws & Hws & Hc).
  exists ws. split; [exact Hws|]. split; [exact Hc|]. split; [|split].
  - pose proof (window_loop_bounds size overlap _ _ _ _ (Z.le_refl 0) Hws) as Hb.
    eapply Forall_impl; [exact Hb|]. simpl. intros w [Hw1 Hw2]. lia.
  - intros p Hp.
    exact (window_loop_cover size overlap _ _ _ _ Hos (Z.le_refl 0) Hws p Hp).
  - intros i w1 w2 H1 H2.
    pose proof (window_loop_adjacent size overlap _ _ _ _ Hos (Z.le_refl 0) Hws
                  i w1 w2 H1 H2) as (Ha & Hb & Hc').
    lia.
Qed.

Lemma chunk_coverage_witness :
  exists ws,
    chunk_windows 10 3 15 (Z.of_nat (length (lit "AAAAABBBBBCCCCC"))) = Some ws
    /\ chunk_text_with 10 3 15 (lit "AAAAABBBBBCCCCC")
       = Some (omap (window_chunk (lit "AAAAABBBBBCCCCC")) ws)
    /\ Forall (fun w => 0 <= fst w < snd w
                       /\ snd w = Z.min (fst w + 10)
                                    (Z.of_nat (length (lit "AAAAABBBBBCCCCC")))) ws
    /\ (forall p, 0 <= p < Z.of_nat (length (lit "AAAAABBBBBCCCCC")) ->
          exists w, w ∈ ws /\ fst w <= p < snd w)
    /\ (forall i w1 w2, ws !! i = Some w1 -> ws !! S i = Some w2 ->
          fst w1 < fst w2 /\ fst w2 <= snd w1 /\ snd w1 < snd w2
          /\ snd w1 - fst w2 = 3).
Proof.
  apply (chunk_coverage 10 3 (lit "AAAAABBBBBCCCCC") 15); [lia | simpl; lia].
Defined.

(** The chunks of a terminating run: each is a non-empty trimmed piece
    of a window, so at most [size] long when [size] is not negative. *)
Lemma chunk_text_run_bounded (size overlap : Z) (text : pystr) (fuel : nat) :
  0 <= size -> overlap < size -> (length text <= fuel)%nat ->
  exists chunks,
    chunk_text_with size overlap fuel text = Some chunks
    /\ Forall (fun c => c <> [] /\ strip c = c
                        /\ Z.of_nat (length c) <= size) chunks.
Proof.
  intros Hs0 Hos Hf.
  destruct (chunk_text_run size overlap text fuel Hos Hf) as (ws & Hws & Hc).
  exists (omap (window_chunk text) ws). split; [exact Hc|].
  pose proof (window_loop_bounds size overlap _ _ _ _ (Z.le_refl 0) Hws) as Hb.
  rewrite Forall_forall in Hb. apply Forall_forall. intros c Hin.
  apply list_elem_of_omap in Hin as (w & Hw & Hwc).
  destruct (Hb w Hw) as [Hw1 Hw2].
  unfold window_chunk in Hwc. simpl in Hwc.
  destruct (truthy (strip (slice text (fst w) (snd w)))) eqn:Et; [|discriminate].
  injection Hwc as <-. split; [|split].
  - now apply truthy_nonempty.
  - apply strip_idem.
  - pose proof (strip_length (slice text (fst w) (snd w))) as Hl.
    pose proof (slice_length text (fst w) (snd w)) as Hs.
    lia.
Qed.

(** C8: with [0 <= overlap < size], chunking any text returns, and every
    chunk returned is non-empty, is its own trimmed form, and is at most
    [size] characters long; chunking the empty string returns the empty
    list, whatever the fuel. *)
Theorem chunk_text_chunks_bounded (size overlap : Z) :
  0 <= overlap < size ->
  (forall fuel, chunk_text_with size overlap fuel [] = Some [])
  /\ (forall text fuel, (length text <= fuel)%nat ->
        exists chunks,
          chunk_text_with size overlap fuel text = Some chunks
          /\ Forall (fun c => c <> [] /\ strip c = c
                              /\ Z.of_nat (length c) <= size) chunks).
Proof.
  intros Hos. split.
  - intros [|fuel]; reflexivity.
  - intros text fuel Hf.
    apply chunk_text_run_bounded; [lia | lia | exact Hf].
Qed.

Lemma chunk_text_chunks_bounded_witness :
  (forall fuel, chunk_text_with 10 3 fuel [] = Some [])
  /\ (forall text fuel, (length text <= fuel)%nat ->
        exists chunks,
          chunk_text_with 10 3 fuel text = Some chunks
          /\ Forall (fun c => c <> [] /\ strip c = c
                              /\ Z.of_nat (length c) <= 10) chunks).
Proof. apply (chunk_text_chunks_bounded 10 3); lia. Defined.

(** [chunk_text] with the constants of the file always returns. *)
Lemma chunk_text_total (text : pystr) :
  exists chunks,
    chunk_text text = Some chunks
    /\ Forall (fun c => c <> [] /\ strip c = c
                        /\ Z.of_nat (length c) <= CHUNK_SIZE) chunks.
Proof.
  unfold chunk_text.
  apply chunk_text_run_bounded;
    [unfold CHUNK_SIZE; lia | unfold CHUNK_SIZE, CHUNK_OVERLAP; lia | reflexivity].
Qed.

(** C2, as stated: no run of the chunker on ["AAAAABBBBBCCCCC"] with
    size 10 and overlap 3 returns [["AAAAABBBBB", "BBCCCCC"]]. *)
Lemma chunk_example_claimed_output_wrong :
  ~ exists fuel,
      chunk_text_with 10 3 fuel (lit "AAAAABBBBBCCCCC")
      = Some [lit "AAAAABBBBB"; lit "BBCCCCC"].
Proof.
  intros [fuel H].
  destruct fuel as [|[|fuel]]; vm_compute in H; discriminate.
Qed.

(** C2, amended: with size 10 and overlap 3 the chunker splits
    ["AAAAABBBBBCCCCC"] into ["AAAAABBBBB"] and ["BBBCCCCC"]; the second
    window is [text[7:15]], whose first three characters are the last
    three of the first window. Two iterations are enough. *)
Theorem chunk_example (fuel : nat) :
  chunk_text_with 10 3 (S (S fuel)) (lit "AAAAABBBBBCCCCC")
  = Some [lit "AAAAABBBBB"; lit "BBBCCCCC"].
Proof. reflexivity. Qed.

End ChunkerFacts.

(** ** Retrieval *)

Module RetrievalFacts.

Import Geminitestv1.

(** The loop body can only raise [AttributeError], and does so exactly
    when the metadata entry of the rank is [None]. *)
Lemma rank_step_none (metas : list (option metadata)) (ids : list pystr)
    (i : nat) (doc : pyval) :
  metas !! i = Some None -> rank_step metas ids i doc = raise AttributeError.
Proof. intros E. unfold rank_step. rewrite E. reflexivity. Qed.

Lemma rank_step_dict (metas : list (option metadata)) (ids : list pystr)
    (i : nat) (doc : pyval) :
  metas !! i <> Some None ->
  exists c,
    rank_step metas ids i doc
    = ret (c, context_block i (cit_source_file c) (cit_chunk_index c) doc)
    /\ cit_id c = default (lit "chunk_" ++ str_int (Z.of_nat i)) (ids !! i)
    /\ cit_source_file c
       = default (PStr (lit "unknown"))
           (default ∅ (mjoin (metas !! i)) !! lit "source_file")
    /\ cit_chunk_index c
       = default (PInt (Z.of_nat i))
           (default ∅ (mjoin (metas !! i)) !! lit "chunk_index").
Proof.
  intros E. unfold rank_step.
  destruct (metas !! i) as [[d|]|]; [| congruence |];
    (eexists (Citation _ _ _); split; [reflexivity|]);
    cbn [cit_id cit_source_file cit_chunk_index mjoin option_join default];
    repeat split; destruct (ids !! i); reflexivity.
Qed.

Lemma rank_step_raises (metas : list (option metadata)) (ids : list pystr)
    (i : nat) (doc : pyval) (e : exn) :
  rank_step metas ids i doc = raise e -> e = AttributeError.
Proof.
  unfold rank_step.
  destruct (metas !! i) as [[d|]|]; intros H; inversion H; reflexivity.
Qed.

(** A run of the loop over entries that are all dicts returns, adding one
    citation and one block per document, in the order of the documents. *)
Lemma rank_loop_ok (metas : list (option metadata)) (ids : list pystr)
    (docs : list pyval) :
  forall (i : nat) (cs : list citation) (bs : list pystr),
    (forall j, j < length docs -> metas !! (i + j) <> Some None) ->
    exists cs' bs',
      rank_loop metas ids i docs cs bs = ret (cs ++ cs', bs ++ bs')
      /\ length cs' = length docs /\ length bs' = length docs
      /\ forall j doc, docs !! j = Some doc ->
           exists c b,
             rank_step metas ids (i + j) doc = ret (c, b)
             /\ cs' !! j = Some c /\ bs' !! j = Some b.
Proof.
  induction docs as [|doc docs IH]; intros i cs bs Hm.
  - exists [], []. rewrite !app_nil_r. repeat split; try reflexivity.
    intros j d Hj. rewrite lookup_nil in Hj. discriminate.
  - assert (H0 : metas !! i <> Some None).
    { specialize (Hm 0). rewrite Nat.add_0_r in Hm. apply Hm. simpl. lia. }
    destruct (rank_step_dict metas ids i doc H0) as (c & Hc & _).
    destruct (IH (S i) (cs ++ [c]) (bs ++ [context_block i (cit_source_file c)
                                              (cit_chunk_index c) doc]))
      as (cs' & bs' & Hl & Hcs & Hbs & Hj).
    { intros j Hlt. replace (S i + j) with (i + S j) by lia.
      apply Hm. simpl. lia. }
    exists (c :: cs'),
      (context_block i (cit_source_file c) (cit_chunk_index c) doc :: bs').
    cbn [rank_loop]. rewrite Hc. cbn [bind ret fst snd].
    unfold ret in Hl. rewrite Hl, <- !app_assoc. cbn [app].
    split; [reflexivity|]. cbn [length]. rewrite Hcs, Hbs.
    split; [reflexivity|]. split; [reflexivity|].
    intros [|j] d Hd.
    + injection Hd as <-. rewrite Nat.add_0_r. eauto.
    + replace (i + S j) with (S i + j) by lia. exact (Hj j d Hd).
Qed.

(** A run of the loop that meets a [None] metadata entry raises. *)
Lemma rank_loop_none (metas : list (option metadata)) (ids : list pystr)
    (docs : list pyval) :
  forall (i j : nat) (cs : list citation) (bs : list pystr),
    j < length docs -> metas !! (i + j) = Some None ->
    rank_loop metas ids i docs cs bs = raise AttributeError.
Proof.
  induction docs as [|doc docs IH]; intros i j cs bs Hj Hm; [simpl in Hj; lia|].
  cbn [rank_loop].
  destruct (rank_step metas ids i doc) as [e | cb] eqn:E.
  - apply rank_step_raises in E. subst e. reflexivity.
  - destruct j as [|j].
    + rewrite Nat.add_0_r in Hm. rewrite (rank_step_none _ _ _ _ Hm) in E.
      discriminate.
    + cbn [bind]. apply (IH (S i) j).
      * simpl in Hj. lia.
      * replace (S i + j) with (i + S j) by lia. exact Hm.
Qed.

Section Retrieval.
Context {embedding : Type}.
Variable encode : pystr -> embedding.
Variable collection_query : embedding -> Z -> query_result.

(** C6: for a query answered by the store with a row of at most [k]
    documents whose metadata entries are dicts, [retrieve_context] returns
    one citation and one block per document, in the order of the row: so
    at most [k] citations; citation [i] carries the id the store returned
    at rank [i]; block [i] is the one of document [i] and citation [i] and
    begins with the marker of rank [i + 1]; the context text is the
    trimmed join of the blocks. When the row is empty the result is the
    empty string with no citation. *)
Theorem retrieve_context_ranked (query : pystr) (k : Z)
    (docs : list pyval) (metas : list (option metadata)) (ids : list pystr) :
  (1 <= k)%Z ->
  first_row (documents (collection_query (encode query) k)) = ret docs ->
  first_row (metadatas (collection_query (encode query) k)) = ret metas ->
  first_row (Chroma.ids (collection_query (encode query) k)) = ret ids ->
  (Z.of_nat (length docs) <= k)%Z ->
  (forall i, i < length docs -> metas !! i <> Some None) ->
  exists (citations : list citation) (blocks : list pystr),
    retrieve_context encode collection_query query k
    = ret (strip (join block_separator blocks), citations)
    /\ length citations = length docs
    /\ length blocks = length citations
    /\ (Z.of_nat (length citations) <= k)%Z
    /\ (forall i doc, docs !! i = Some doc ->
          exists c,
            citations !! i = Some c
            /\ cit_id c = default (lit "chunk_" ++ str_int (Z.of_nat i)) (ids !! i)
            /\ blocks !! i
               = Some (lit "[" ++ str_int (Z.of_nat i + 1) ++ lit "] (source: "
                       ++ str (cit_source_file c) ++ lit ", chunk: "
                       ++ str (cit_chunk_index c) ++ lit ")" ++ [10%N] ++ str doc))
    /\ (docs = [] ->
        retrieve_context encode collection_query query k = ret ([], [])).
Proof.
  intros Hk Hd Hm Hi Hlen Hmeta.
  destruct (rank_loop_ok metas ids docs 0 [] [] Hmeta)
    as (cs & bs & Hl & Hcs & Hbs & Hj).
  assert (Hr : retrieve_context encode collection_query query k
               = ret (strip (join block_separator bs), cs)).
  { unfold retrieve_context. rewrite Hd, Hm, Hi. cbn [bind ret].
    unfold ret in Hl. rewrite Hl. reflexivity. }
  exists cs, bs. split; [exact Hr|].
  split; [exact Hcs|]. split; [congruence|]. split; [lia|]. split.
  - intros i doc Hdoc.
    destruct (Hj i doc Hdoc) as (c & b & Hstep & Hc & Hb).
    assert (Hlt : i < length docs) by (eapply lookup_lt_Some; exact Hdoc).
    destruct (rank_step_dict metas ids i doc (Hmeta i Hlt))
      as (c' & Hstep' & Hid & _).
    simpl in Hstep. rewrite Hstep' in Hstep.
    injection Hstep as -> <-.
    exists c. split; [exact Hc|]. split; [exact Hid|]. exact Hb.
  - intros ->. rewrite Hr.
    destruct cs; [|discriminate]. destruct bs; [|discriminate]. reflexivity.
Qed.

(** C7: a ranked result whose metadata entry is [None], which is what the
    store returns for a record stored without metadata, makes
    [retrieve_context] raise [AttributeError] at [meta.get]: no citation
    is emitted and no default is applied. *)
Theorem retrieve_context_none_metadata_raises (query : pystr) (k : Z)
    (docs : list pyval) (metas : list (option metadata)) (ids : list pystr)
    (i : nat) :
  first_row (documents (collection_query (encode query) k)) = ret docs ->
  first_row (metadatas (collection_query (encode query) k)) = ret metas ->
  first_row (Chroma.ids (collection_query (encode query) k)) = ret ids ->
  i < length docs -> metas !! i = Some None ->
  retrieve_context encode collection_query query k = raise AttributeError.
Proof.
  intros Hd Hm Hi Hlt Hnone.
  unfold retrieve_context. rewrite Hd, Hm, Hi. cbn [bind ret].
  rewrite (rank_loop_none metas ids docs 0 i [] [] Hlt Hnone). reflexivity.
Qed.

(** C10: on every query, every [k] and every store, the retrieval
    function of [geminitestv1.py] and that of [geminitestv2.py] return
    the same pair of context text and citations, or raise the same
    exception. *)
Theorem retrieve_context_v1_v2 (query : pystr) (k : Z) :
  Geminitestv1.retrieve_context encode collection_query query k
  = Geminitestv2.retrieve_context encode collection_query query k.
Proof.
  unfold Geminitestv1.retrieve_context, Geminitestv2.retrieve_context.
  reflexivity.
Qed.

End Retrieval.

Lemma retrieve_context_ranked_witness :
  exists (citations : list citation) (blocks : list pystr),
    retrieve_context (fun q => q) (fun _ _ => Samples.two_results) (lit "fees") 4
    = ret (strip (join block_separator blocks), citations)
    /\ length citations = 2
    /\ length blocks = length citations
    /\ (Z.of_nat (length citations) <= 4)%Z
    /\ (forall i doc,
          [PStr (lit "Fees are waived."); PStr (lit "Cards are free.")] !! i
          = Some doc ->
          exists c,
            citations !! i = Some c
            /\ cit_id c
               = default (lit "chunk_" ++ str_int (Z.of_nat i))
                   ([lit "fees.md::0123456789abcdef::3";
                     lit "cards.md::fedcba9876543210::0"] !! i)
            /\ blocks !! i
               = Some (lit "[" ++ str_int (Z.of_nat i + 1) ++ lit "] (source: "
                       ++ str (cit_source_file c) ++ lit ", chunk: "
                       ++ str (cit_chunk_index c) ++ lit ")" ++ [10%N] ++ str doc))
    /\ ([PStr (lit "Fees are waived."); PStr (lit "Cards are free.")] = [] ->
        retrieve_context (fun q => q) (fun _ _ => Samples.two_results)
          (lit "fees") 4
        = ret ([], [])).
Proof.
  apply (retrieve_context_ranked (fun q => q) (fun _ _ => Samples.two_results)
           (lit "fees") 4
           [PStr (lit "Fees are waived."); PStr (lit "Cards are free.")]
           [Some (<[lit "source_file" := PStr (lit "fees.md")]>
                    (<[lit "chunk_index" := PInt 3]> ∅)); Some ∅]
           [lit "fees.md::0123456789abcdef::3";
            lit "cards.md::fedcba9876543210::0"]);
    [lia | reflexivity | reflexivity | reflexivity | simpl; lia |].
  intros [|[|i]] Hi; [discriminate | discriminate | simpl in Hi; lia].
Defined.

Lemma retrieve_context_none_metadata_raises_witness :
  retrieve_context (fun q => q) (fun _ _ => Samples.result_without_metadata)
    (lit "fees") 4
  = raise AttributeError.
Proof.
  apply (retrieve_context_none_metadata_raises (fun q => q)
           (fun _ _ => Samples.result_without_metadata) (lit "fees") 4
           [PStr (lit "text")] [None] [lit "id1"] 0);
    [reflexivity | reflexivity | reflexivity | simpl; lia | reflexivity].
Defined.

End RetrievalFacts.

(** ** Decoding *)

Module TextIOFacts.

Import TextIO.

Local Open Scope N_scope.

Ltac nlia := zify; Z.to_euclidean_division_equations; lia.

Ltac bool_arith :=
  unfold is_cont;
  repeat first
    [ rewrite andb_true_iff | rewrite andb_false_iff
    | rewrite orb_true_iff | rewrite orb_false_iff
    | rewrite N.leb_le | rewrite N.leb_gt | rewrite N.ltb_lt | rewrite N.ltb_ge
    | rewrite N.eqb_eq | rewrite N.eqb_neq ];
  nlia.

Lemma second_ok3_cont (b0 b1 : N) : is_cont b1 = false -> second_ok3 b0 b1 = false.
Proof.
  unfold second_ok3, is_cont. intros H.
  apply andb_false_iff in H. rewrite N.leb_gt in H. rewrite N.leb_gt in H.
  destruct (b0 =? 224); [|destruct (b0 =? 237)]; bool_arith.
Qed.

Lemma second_ok4_cont (b0 b1 : N) : is_cont b1 = false -> second_ok4 b0 b1 = false.
Proof.
  unfold second_ok4, is_cont. intros H.
  apply andb_false_iff in H. rewrite N.leb_gt in H. rewrite N.leb_gt in H.
  destruct (b0 =? 240); [|destruct (b0 =? 244)]; bool_arith.
Qed.

(** The decoder at a lead byte of each class. *)
Lemma decode_with_lead2 (e : pystr) (b0 : N) (r0 : list N) :
  (b0 <? 128) = false -> (194 <=? b0) && (b0 <=? 223) = true ->
  decode_with e (b0 :: r0)
  = match r0 with
    | [] => e
    | b1 :: r1 =>
        if is_cont b1 then cp2 b0 b1 :: decode_with e r1
        else e ++ decode_with e r0
    end.
Proof. intros H1 H2. cbn [decode_with]. rewrite H1, H2. reflexivity. Qed.

Lemma decode_with_lead3 (e : pystr) (b0 : N) (r0 : list N) :
  (b0 <? 128) = false -> (194 <=? b0) && (b0 <=? 223) = false ->
  (224 <=? b0) && (b0 <=? 239) = true ->
  decode_with e (b0 :: r0)
  = match r0 with
    | [] => e
    | b1 :: r1 =>
        if second_ok3 b0 b1 then
          match r1 with
          | [] => e
          | b2 :: r2 =>
              if is_cont b2 then cp3 b0 b1 b2 :: decode_with e r2
              else e ++ decode_with e r1
          end
        else e ++ decode_with e r0
    end.
Proof. intros H1 H2 H3. cbn [decode_with]. rewrite H1, H2, H3. reflexivity. Qed.

Lemma decode_with_lead4 (e : pystr) (b0 : N) (r0 : list N) :
  (b0 <? 128) = false -> (194 <=? b0) && (b0 <=? 223) = false ->
  (224 <=? b0) && (b0 <=? 239) = false ->
  (240 <=? b0) && (b0 <=? 244) = true ->
  decode_with e (b0 :: r0)
  = match r0 with
    | [] => e
    | b1 :: r1 =>
        if second_ok4 b0 b1 then
          match r1 with
          | [] => e
          | b2 :: r2 =>
              if is_cont b2 then
                match r2 with
                | [] => e
                | b3 :: r3 =>
                    if is_cont b3 then cp4 b0 b1 b2 b3 :: decode_with e r3
                    else e ++ decode_with e r2
                end
              else e ++ decode_with e r1
          end
        else e ++ decode_with e r0
    end.
Proof.
  intros H1 H2 H3 H4. cbn [decode_with]. rewrite H1, H2, H3, H4. reflexivity.
Qed.


(** The bytes of the encodings of two, three and four bytes. *)
Lemma utf8_two (c : N) :
  128 <= c -> c < 2048 ->
  (192 + c / 64 <? 128) = false
  /\ (194 <=? 192 + c / 64) && (192 + c / 64 <=? 223) = true
  /\ is_cont (128 + c mod 64) = true
  /\ cp2 (192 + c / 64) (128 + c mod 64) = c.
Proof. intros H1 H2. unfold cp2. repeat split; bool_arith. Qed.

Lemma utf8_three (c : N) :
  2048 <= c -> c < 65536 -> scalar c = true ->
  (224 + c / 4096 <? 128) = false
  /\ (194 <=? 224 + c / 4096) && (224 + c / 4096 <=? 223) = false
  /\ (224 <=? 224 + c / 4096) && (224 + c / 4096 <=? 239) = true
  /\ second_ok3 (224 + c / 4096) (128 + (c / 64) mod 64) = true
  /\ is_cont (128 + c mod 64) = true
  /\ cp3 (224 + c / 4096) (128 + (c / 64) mod 64) (128 + c mod 64) = c.
Proof.
  intros H1 H2 H3. unfold cp3, scalar in *.
  assert (H3' : c < 55296 \/ 57344 <= c) by (revert H3; bool_arith).
  clear H3.
  repeat split; try bool_arith.
  unfold second_ok3.
  destruct (N.eqb_spec (224 + c / 4096) 224) as [E|E];
    [|destruct (N.eqb_spec (224 + c / 4096) 237) as [E'|E']]; bool_arith.
Qed.

Lemma utf8_four (c : N) :
  65536 <= c -> c < 1114112 ->
  (240 + c / 262144 <? 128) = false
  /\ (194 <=? 240 + c / 262144) && (240 + c / 262144 <=? 223) = false
  /\ (224 <=? 240 + c / 262144) && (240 + c / 262144 <=? 239) = false
  /\ (240 <=? 240 + c / 262144) && (240 + c / 262144 <=? 244) = true
  /\ second_ok4 (240 + c / 262144) (128 + (c / 4096) mod 64) = true
  /\ is_cont (128 + (c / 64) mod 64) = true
  /\ is_cont (128 + c mod 64) = true
  /\ cp4 (240 + c / 262144) (128 + (c / 4096) mod 64)
       (128 + (c / 64) mod 64) (128 + c mod 64) = c.
Proof.
  intros H1 H2. unfold cp4.
  repeat split; try bool_arith.
  unfold second_ok4.
  destruct (N.eqb_spec (240 + c / 262144) 240) as [E|E];
    [|destruct (N.eqb_spec (240 + c / 262144) 244) as [E'|E']]; bool_arith.
Qed.

Lemma scalar_bound (c : N) : scalar c = true -> c < 1114112.
Proof. unfold scalar. bool_arith. Qed.

(** The encoding of a scalar value decodes to it, whatever follows. *)
Lemma decode_with_char (e : pystr) (c : N) (r : list N) :
  scalar c = true -> decode_with e (utf8 c ++ r) = c :: decode_with e r.
Proof.
  intros Hc. pose proof (scalar_bound c Hc) as Hb. unfold utf8.
  destruct (N.ltb_spec c 128) as [H1|H1].
  { cbn [app decode_with]. rewrite (proj2 (N.ltb_lt _ _) H1). reflexivity. }
  destruct (N.ltb_spec c 2048) as [H2|H2].
  { destruct (utf8_two c H1 H2) as (A1 & A2 & A3 & A4).
    cbn [app]. rewrite decode_with_lead2 by assumption.
    rewrite A3, A4. reflexivity. }
  destruct (N.ltb_spec c 65536) as [H3|H3].
  { destruct (utf8_three c H2 H3 Hc) as (A1 & A2 & A3 & A4 & A5 & A6).
    cbn [app]. rewrite decode_with_lead3 by assumption.
    rewrite A4, A5, A6. reflexivity. }
  destruct (utf8_four c H3 Hb) as (A1 & A2 & A3 & A4 & A5 & A6 & A7 & A8).
  cbn [app]. rewrite decode_with_lead4 by assumption.
  rewrite A5, A6, A7, A8. reflexivity.
Qed.



(** *** Every file is a sequence of pieces *)














End TextIOFacts.

(** ** Loading the documents *)

Module LoaderFacts.

Import TextIO BuildIndex TextIOFacts.




Lemma startswith_sep (s x p : pystr) :
  47%N ∉ p -> startswith (s ++ 47%N :: x) p = startswith s p.
Proof.
  revert s. induction p as [|c p IH]; intros s Hp.
  - destruct s; reflexivity.
  - apply not_elem_of_cons in Hp as [Hc Hp].
    destruct s as [|d s]; cbn [app startswith].
    + destruct (N.eqb_spec c 47); [congruence | reflexivity].
    + now rewrite IH.
Qed.

Lemma path_join_kb_dir (name : pystr) :
  path_join KB_DIR name = KB_DIR ++ 47%N :: name.
Proof. reflexivity. Qed.

(** The suffix test on a globbed path is the test on the entry name. *)
Lemma endswith_path (name suffix : pystr) :
  47%N ∉ suffix ->
  endswith (lower (path_join KB_DIR name)) suffix = endswith (lower name) suffix.
Proof.
  intros Hs. rewrite path_join_kb_dir. unfold endswith, lower.
  rewrite map_app. cbn [map]. rewrite rev_app_distr. cbn [rev].
  rewrite <- app_assoc. cbn [app].
  change (lower_char 47) with 47%N.
  apply startswith_sep. rewrite list_elem_of_In, <- in_rev, <- list_elem_of_In. exact Hs.
Qed.

Lemma load_doc_ineligible (e : pystr * node) :
  hidden (fst e) = false -> eligible e = false ->
  load_doc (path_join KB_DIR (fst e), snd e) = None.
Proof.
  destruct e as [name nd]. cbn [fst snd]. intros Hh He.
  unfold load_doc, eligible in *. cbn [fst snd] in *.
  destruct nd as [content|]; [|reflexivity].
  rewrite Hh in He. cbn [negb andb] in He.
  rewrite !endswith_path
    by (repeat (apply not_elem_of_cons; split; [discriminate|]);
        apply not_elem_of_nil).
  destruct (endswith (lower name) (lit ".md") || endswith (lower name) (lit ".txt"));
    [|reflexivity].
  cbn [negb andb] in *. 
  destruct (length (TextIO.read_text content) =? 0)%nat; [reflexivity | discriminate].
Qed.

Lemma load_docs_barren (cwd entries : list (pystr * node)) :
  lookup_entry KB_DIR cwd = Some (Dir entries) ->
  Forall (fun e => eligible e = false) entries ->
  load_docs cwd KB_DIR = [].
Proof.
  intros Hl He. unfold load_docs, glob_star. rewrite Hl. clear Hl.
  induction He as [|e entries He _ IH]; [reflexivity|].
  cbn [filter list_filter].
  destruct (decide (hidden (fst e) = false)) as [Hh|Hh]; [|exact IH].
  cbn [map omap list_omap]. rewrite (load_doc_ineligible e Hh He). exact IH.
Qed.

Section Main.
Context {embedding : Type}.
Variable encode : list pystr -> list embedding.
Variable max_batch_size : nat.

(** C4: when [kb_docs] does not exist, or is not a directory, [main]
    raises [SystemExit] with the message that the directory was not
    found; when it is a directory without any eligible entry, [main]
    raises [SystemExit] with the message that no documents were found.
    In each case the store is the one [main] was started with. *)
Theorem main_aborts_before_store (cwd : list (pystr * node))
    (st : store embedding) :
  (lookup_entry KB_DIR cwd = None ->
   main encode max_batch_size cwd st = Some (raise (SystemExit msg_no_dir), st))
  /\ (forall content, lookup_entry KB_DIR cwd = Some (File content) ->
      main encode max_batch_size cwd st = Some (raise (SystemExit msg_no_dir), st))
  /\ (forall entries, lookup_entry KB_DIR cwd = Some (Dir entries) ->
      Forall (fun e => eligible e = false) entries ->
      main encode max_batch_size cwd st = Some (raise (SystemExit msg_no_docs), st)).
Proof.
  unfold main, isdir. repeat split.
  - intros ->. reflexivity.
  - intros content ->. reflexivity.
  - intros entries Hl He. rewrite Hl. cbn [negb].
    rewrite (load_docs_barren cwd entries Hl He). reflexivity.
Qed.

End Main.

Lemma main_aborts_before_store_witness :
  main (fun texts => map length texts) Samples.batch_limit [] ∅
  = Some (raise (SystemExit msg_no_dir), ∅)
  /\ main (fun texts => map length texts) Samples.batch_limit Samples.barren_cwd ∅
     = Some (raise (SystemExit msg_no_docs), ∅).
Proof.
  split.
  - apply (proj1 (main_aborts_before_store (fun texts => map length texts)
                    Samples.batch_limit [] ∅)).
    reflexivity.
  - apply (proj2 (proj2 (main_aborts_before_store
                           (fun texts => map length texts) Samples.batch_limit
                           Samples.barren_cwd ∅))
             Samples.barren_entries); [reflexivity|].
    repeat constructor.
Defined.

End LoaderFacts.

(** ** Chunk ids *)

Module IndexFacts.

Import TextIO BuildIndex.

(** *** The parts of an id *)

Lemma hexdigest_length (msg : list N) : length (Sha256.hexdigest msg) = 64.
Proof.
  unfold Sha256.hexdigest. cbv zeta. rewrite !length_app. reflexivity.
Qed.

(** The content hash is 16 characters long. *)
Lemma file_hash_length (content : list N) : length (file_hash content) = 16.
Proof.
  unfold file_hash. rewrite length_take, hexdigest_length. reflexivity.
Qed.

Lemma uint_digits_no_colon (d : Decimal.uint) : 58%N ∉ uint_digits d.
Proof.
  induction d; cbn [uint_digits];
    [apply not_elem_of_nil
    | apply not_elem_of_cons; split; [discriminate | assumption] ..].
Qed.

Lemma uint_digits_inj (d d' : Decimal.uint) :
  uint_digits d = uint_digits d' -> d = d'.
Proof.
  revert d'. induction d; intros [] H; cbn [uint_digits] in H;
    try discriminate H; try reflexivity;
    injection H as H; f_equal; auto.
Qed.

Lemma str_int_no_colon (i : nat) : 58%N ∉ str_int (Z.of_nat i).
Proof.
  unfold str_int. destruct (Z.of_nat i) eqn:E.
  - apply not_elem_of_cons. split; [discriminate | apply not_elem_of_nil].
  - apply uint_digits_no_colon.
  - lia.
Qed.

Lemma to_uint_not_zero (p : positive) : Pos.to_uint p <> Decimal.D0 Decimal.Nil.
Proof.
  intros E. pose proof (DecimalPos.Unsigned.of_to p) as H.
  rewrite E in H. discriminate H.
Qed.

Lemma to_uint_inj (p q : positive) : Pos.to_uint p = Pos.to_uint q -> p = q.
Proof.
  intros E. pose proof (DecimalPos.Unsigned.of_to p) as Hp.
  pose proof (DecimalPos.Unsigned.of_to q) as Hq.
  rewrite E in Hp. congruence.
Qed.

(** [str] is injective on the chunk indices. *)
Lemma str_int_inj (i j : nat) :
  str_int (Z.of_nat i) = str_int (Z.of_nat j) -> i = j.
Proof.
  intros H. apply Nat2Z.inj. revert H. unfold str_int.
  destruct (Z.of_nat i) as [|p|p] eqn:Ei; [| |lia];
    (destruct (Z.of_nat j) as [|q|q] eqn:Ej; [| |lia]); intros H.
  - reflexivity.
  - exfalso. apply (to_uint_not_zero q).
    apply uint_digits_inj. symmetry. exact H.
  - exfalso. apply (to_uint_not_zero p).
    apply uint_digits_inj. exact H.
  - f_equal. apply to_uint_inj, uint_digits_inj, H.
Qed.

(** Two strings cut at their last colon agree on both sides. *)
Lemma split_at_last_colon (a a' d d' : pystr) :
  58%N ∉ d -> 58%N ∉ d' -> a ++ 58%N :: d = a' ++ 58%N :: d' ->
  a = a' /\ d = d'.
Proof.
  intros Hd Hd'. revert a'.
  induction a as [|x a IH]; intros [|y a'] H; cbn [app] in H.
  - injection H as ->. split; reflexivity.
  - injection H as <- ->. exfalso. apply Hd.
    apply elem_of_app. right. apply list_elem_of_here.
  - injection H as -> <-. exfalso. apply Hd'.
    apply elem_of_app. right. apply list_elem_of_here.
  - injection H as -> H. destruct (IH a' H) as [-> ->]. split; reflexivity.
Qed.

Lemma chunk_id_split (d : doc) (i : nat) :
  chunk_id d i
  = (filename d ++ [58; 58]%N ++ hash d ++ [58%N]) ++ 58%N :: str_int (Z.of_nat i).
Proof.
  unfold chunk_id. change (lit "::") with [58; 58]%N.
  rewrite <- !app_assoc. reflexivity.
Qed.

(** An id determines the file name, the hash and the index, for hashes
    of one length. *)
Lemma chunk_id_inj (d d' : doc) (i j : nat) :
  length (hash d) = length (hash d') ->
  chunk_id d i = chunk_id d' j ->
  filename d = filename d' /\ hash d = hash d' /\ i = j.
Proof.
  intros Hlen H. rewrite !chunk_id_split in H.
  apply split_at_last_colon in H as [H Hs]; try apply str_int_no_colon.
  apply str_int_inj in Hs.
  apply app_inj_2 in H as [Hf Hh].
  - split; [exact Hf|]. split; [|exact Hs].
    cbn [app] in Hh. injection Hh as Hh.
    apply app_inj_2 in Hh as [Hh _]; [exact Hh | reflexivity].
  - cbn [app length]. rewrite !length_app. cbn [length]. lia.
Qed.

(** *** The rows of one document *)

Lemma imap_ids (g : nat -> pystr) (h : nat -> pystr -> pystr * pystr * metadata)
    (chunks : list pystr) :
  (forall i c, fst (fst (h i c)) = g i) ->
  map (fun r => fst (fst r)) (imap h chunks) = map g (seq 0 (length chunks)).
Proof.
  revert g h. induction chunks as [|c chunks IH]; intros g h Hh; [reflexivity|].
  cbn [imap map length seq]. rewrite Hh. f_equal.
  rewrite (IH (fun i => g (S i)) (h ∘ S)) by (intros i c'; apply Hh).
  rewrite <- seq_shift, map_map. reflexivity.
Qed.

Lemma doc_rows_ids (d : doc) (chunks : list pystr) :
  map (fun r => fst (fst r)) (doc_rows d chunks)
  = map (chunk_id d) (seq 0 (length chunks)).
Proof. unfold doc_rows. apply imap_ids. reflexivity. Qed.

Lemma NoDup_map_seq (g : nat -> pystr) (start len : nat) :
  (forall i j, g i = g j -> i = j) -> NoDup (map g (seq start len)).
Proof.
  intros Hg. revert start.
  induction len as [|len IH]; intros start; cbn [seq map]; [constructor|].
  apply NoDup_cons. split; [|apply IH].
  intros Hin. apply list_elem_of_In, in_map_iff in Hin as (j & Hj & Hin).
  apply in_seq in Hin. apply Hg in Hj. lia.
Qed.

Lemma doc_rows_nodup (d : doc) (chunks : list pystr) :
  NoDup (map (fun r => fst (fst r)) (doc_rows d chunks)).
Proof.
  rewrite doc_rows_ids. apply NoDup_map_seq.
  intros i j H. now apply (chunk_id_inj d d i j eq_refl) in H as (_ & _ & H).
Qed.

(** *** The rows of a build *)

(** Over documents with distinct file names and hashes of 16 characters,
    the loop of [main] returns rows with pairwise distinct ids, each the
    id of a chunk index of one of the documents. *)
Lemma collect_ids (docs : list doc) :
  NoDup (map filename docs) ->
  Forall (fun d => length (hash d) = 16) docs ->
  exists rows,
    collect docs = Some rows
    /\ NoDup (map (fun r => fst (fst r)) rows)
    /\ Forall (fun r => exists d i, In d docs /\ fst (fst r) = chunk_id d i) rows.
Proof.
  induction docs as [|d docs IH]; intros Hnd Hh.
  - exists []. split; [reflexivity|]. split; constructor.
  - cbn [map] in Hnd. apply NoDup_cons in Hnd as [Hd Hnd].
    apply Forall_cons in Hh as [Hhd Hh].
    destruct (IH Hnd Hh) as (rows & Hc & Hrows & Hall).
    destruct (ChunkerFacts.chunk_text_total (text d)) as (chunks & Hchunks & _).
    exists (doc_rows d chunks ++ rows).
    cbn [collect]. rewrite Hchunks, Hc.
    split; [reflexivity|]. split.
    + rewrite map_app. apply NoDup_app.
      split; [apply doc_rows_nodup|]. split; [|exact Hrows].
      intros x Hx Hx'. rewrite doc_rows_ids in Hx.
      apply list_elem_of_In, in_map_iff in Hx as (i & <- & _).
      apply list_elem_of_In, in_map_iff in Hx' as (r & Hr & Hin).
      rewrite Forall_forall in Hall.
      destruct (Hall r (proj2 (list_elem_of_In _ _) Hin)) as (d' & j & Hd' & Hid).
      rewrite Hid in Hr. rewrite Forall_forall in Hh.
      pose proof (Hh d' (proj2 (list_elem_of_In _ _) Hd')) as Hhd'.
      symmetry in Hr. apply chunk_id_inj in Hr as (Hf & _); [|congruence].
      apply Hd. rewrite Hf. apply list_elem_of_In, in_map. exact Hd'.
    + apply Forall_app. split.
      * apply Forall_forall. intros r Hr.
        unfold doc_rows in Hr.
        apply elem_of_lookup_imap_1 in Hr as (i & c & -> & _).
        exists d, i. split; [left; reflexivity | reflexivity].
      * eapply Forall_impl; [exact Hall|].
        intros r (d' & j & Hd' & Hid). exists d', j.
        split; [right; exact Hd' | exact Hid].
Qed.

(** *** The documents of the directory *)

Lemma basename_rev_sep (s x : pystr) :
  47%N ∉ s -> basename_rev (s ++ 47%N :: x) = s.
Proof.
  induction s as [|c s IH]; intros Hs; cbn [app basename_rev].
  - reflexivity.
  - apply not_elem_of_cons in Hs as [Hc Hs].
    destruct (N.eqb_spec c 47); [congruence|]. now rewrite IH.
Qed.

(** The base name of a globbed path is the entry name. *)
Lemma basename_path (name : pystr) :
  47%N ∉ name -> basename (path_join KB_DIR name) = name.
Proof.
  intros Hn. rewrite LoaderFacts.path_join_kb_dir. unfold basename.
  rewrite rev_app_distr. cbn [rev]. rewrite <- app_assoc. cbn [app].
  rewrite basename_rev_sep; [apply rev_involutive|].
  rewrite list_elem_of_In, <- in_rev, <- list_elem_of_In. exact Hn.
Qed.

Lemma load_doc_fields (name : pystr) (nd : node) (d : doc) :
  47%N ∉ name ->
  load_doc (path_join KB_DIR name, nd) = Some d ->
  exists content,
    nd = File content /\ filename d = name /\ hash d = file_hash content
    /\ text d = read_text content /\ path d = path_join KB_DIR name.
Proof.
  intros Hn. unfold load_doc. cbn [fst snd].
  destruct nd as [content|]; [|discriminate].
  destruct (negb _); [discriminate|].
  destruct (_ =? _)%nat; [discriminate|].
  intros H. injection H as <-. exists content. cbn [filename hash text path].
  split; [reflexivity|]. split; [now apply basename_path|].
  repeat split.
Qed.

(** The documents loaded from a directory whose entry names are distinct
    and free of slashes have distinct file names, and each is a regular
    file of the directory under its joined path, with the hash of its
    bytes and the text read from them. *)
Lemma load_docs_names (entries : list (pystr * node)) :
  NoDup (map fst entries) ->
  Forall (fun e => 47%N ∉ fst e) entries ->
  NoDup (map filename
           (omap load_doc
              (map (fun e => (path_join KB_DIR (fst e), snd e))
                 (filter (fun e => hidden (fst e) = false) entries))))
  /\ Forall (fun d => exists content,
               In (filename d, File content) entries
               /\ hash d = file_hash content
               /\ text d = read_text content
               /\ path d = path_join KB_DIR (filename d))
       (omap load_doc
          (map (fun e => (path_join KB_DIR (fst e), snd e))
             (filter (fun e => hidden (fst e) = false) entries))).
Proof.
  induction entries as [|e entries IH]; intros Hnd Hs.
  - split; constructor.
  - cbn [map] in Hnd. apply NoDup_cons in Hnd as [He Hnd].
    apply Forall_cons in Hs as [Hse Hs].
    destruct (IH Hnd Hs) as [IH1 IH2].
    assert (IH2' : Forall (fun d => exists content,
                             In (filename d, File content) (e :: entries)
                             /\ hash d = file_hash content
                             /\ text d = read_text content
                             /\ path d = path_join KB_DIR (filename d))
                     (omap load_doc
                        (map (fun e => (path_join KB_DIR (fst e), snd e))
                           (filter (fun e => hidden (fst e) = false) entries)))).
    { eapply Forall_impl; [exact IH2|].
      intros d (content & Hin & Hh). exists content.
      split; [right; exact Hin | exact Hh]. }
    cbn [filter list_filter].
    destruct (decide (hidden (fst e) = false)) as [Hh|Hh]; [|split; assumption].
    cbn [map omap list_omap].
    destruct (load_doc (path_join KB_DIR (fst e), snd e)) as [d|] eqn:El;
      [|split; assumption].
    destruct (load_doc_fields _ _ _ Hse El)
      as (content & Hnode & Hname & Hhash & Htext & Hpath).
    split.
    + cbn [map]. apply NoDup_cons. split; [|exact IH1].
      intros Hin. apply He.
      apply list_elem_of_In, in_map_iff in Hin as (d' & Hd' & Hin').
      rewrite Forall_forall in IH2.
      destruct (IH2 d' (proj2 (list_elem_of_In _ _) Hin')) as (c' & Hc' & _).
      rewrite Hname in Hd'. rewrite <- Hd'.
      apply list_elem_of_In. apply (in_map fst) in Hc'. exact Hc'.
    + apply Forall_cons. split; [|exact IH2'].
      exists content. split; [left; rewrite Hname, <- Hnode; now destruct e|].
      split; [exact Hhash|]. split; [exact Htext | now rewrite Hname].
Qed.

(** The rows of the loop of [main], document by document: those of the
    chunks of each file in turn, every id and metadata written with the
    position of its chunk. *)
Lemma collect_files (entries : list (pystr * node)) (docs : list doc) :
  Forall (fun d => exists content,
            In (filename d, File content) entries
            /\ hash d = file_hash content
            /\ text d = read_text content
            /\ path d = path_join KB_DIR (filename d)) docs ->
  exists (files : list (pystr * list N * list pystr)) rows,
    collect docs = Some rows
    /\ Forall (fun '(name, content, chunks) =>
                 In (name, File content) entries
                 /\ chunk_text (read_text content) = Some chunks) files
    /\ rows
       = flat_map (fun '(name, content, chunks) =>
                     imap (fun i chunk =>
                             (name ++ lit "::" ++ take 16 (Sha256.hexdigest content)
                                ++ lit "::" ++ str_int (Z.of_nat i),
                              chunk,
                              <[lit "source_file" := PStr name]>
                                (<[lit "source_path" := PStr (path_join KB_DIR name)]>
                                   (<[lit "chunk_index" := PInt (Z.of_nat i)]> ∅))))
                       chunks) files.
Proof.
  induction 1
    as [|d docs (content & Hin & Hh & Ht & Hp) _ (files & rows & Hc & Hf & Hr)].
  - exists [], []. split; [reflexivity|]. split; [constructor | reflexivity].
  - destruct (ChunkerFacts.chunk_text_total (text d)) as (chunks & Hchunks & _).
    exists ((filename d, content, chunks) :: files), (doc_rows d chunks ++ rows).
    cbn [collect]. rewrite Hchunks, Hc. split; [reflexivity|]. split.
    + constructor; [|exact Hf]. split; [exact Hin | now rewrite <- Ht].
    + rewrite Hr. cbn [flat_map]. f_equal.
      unfold doc_rows. apply imap_ext. intros i c _.
      unfold chunk_id, chunk_metadata. rewrite Hh, Hp. reflexivity.
Qed.

Lemma imap_fst (h : nat -> pystr -> pystr * pystr * metadata)
    (g : nat -> pystr -> pystr * pystr) (chunks : list pystr) :
  (forall i c, fst (h i c) = g i c) ->
  map fst (imap h chunks) = imap g chunks.
Proof.
  revert g h. induction chunks as [|c chunks IH]; intros g h Hh; [reflexivity|].
  cbn [imap map]. rewrite Hh. f_equal.
  apply (IH (g ∘ S) (h ∘ S)). intros i c'. apply Hh.
Qed.

(** C3: in a build over a knowledge-base directory (whose entry names
    are distinct and contain no slash, as in any directory), the loop of
    [main] returns, and its rows are those of a list of regular files of
    the directory taken one after the other: for each file, one row per
    chunk of the text read from it, in the order of the chunks. The id of
    a row is the file name, two colons, the first 16 characters of the
    SHA-256 hex digest of the file's bytes, two colons, and the index of
    the chunk among the chunks of that file (from 0) in decimal; the file
    name and the chunk index are those the row carries in its metadata.
    The ids of all the rows of the build are pairwise distinct. *)
Theorem build_ids_unique (cwd entries : list (pystr * node)) :
  lookup_entry KB_DIR cwd = Some (Dir entries) ->
  NoDup (map fst entries) ->
  Forall (fun e => 47%N ∉ fst e) entries ->
  exists (files : list (pystr * list N * list pystr)) rows,
    collect (load_docs cwd KB_DIR) = Some rows
    /\ Forall (fun '(name, content, chunks) =>
                 In (name, File content) entries
                 /\ chunk_text (read_text content) = Some chunks) files
    /\ rows
       = flat_map (fun '(name, content, chunks) =>
                     imap (fun i chunk =>
                             (name ++ lit "::" ++ take 16 (Sha256.hexdigest content)
                                ++ lit "::" ++ str_int (Z.of_nat i),
                              chunk,
                              <[lit "source_file" := PStr name]>
                                (<[lit "source_path" := PStr (path_join KB_DIR name)]>
                                   (<[lit "chunk_index" := PInt (Z.of_nat i)]> ∅))))
                       chunks) files
    /\ Forall (fun '(name, content, chunks) =>
                 length (take 16 (Sha256.hexdigest content)) = 16) files
    /\ NoDup (map (fun r => fst (fst r)) rows).
Proof.
  intros Hl Hnd Hs.
  destruct (load_docs_names entries Hnd Hs) as [Hnames Hfiles].
  unfold load_docs, glob_star. rewrite Hl.
  destruct (collect_ids _ Hnames) as (rows & Hc & Hrows & _).
  { eapply Forall_impl; [exact Hfiles|].
    intros d (content & _ & -> & _). apply file_hash_length. }
  destruct (collect_files entries _ Hfiles) as (files & rows' & Hc' & Hf & Hr).
  rewrite Hc in Hc'. injection Hc' as <-.
  exists files, rows. split; [exact Hc|]. split; [exact Hf|].
  split; [exact Hr|]. split; [|exact Hrows].
  apply Forall_forall. intros [[name content] chunks] _. apply file_hash_length.
Qed.

Lemma build_ids_unique_witness :
  exists (files : list (pystr * list N * list pystr)) rows,
    collect (load_docs Samples.small_cwd KB_DIR) = Some rows
    /\ Forall (fun '(name, content, chunks) =>
                 In (name, File content) Samples.small_entries
                 /\ chunk_text (read_text content) = Some chunks) files
    /\ rows
       = flat_map (fun '(name, content, chunks) =>
                     imap (fun i chunk =>
                             (name ++ lit "::" ++ take 16 (Sha256.hexdigest content)
                                ++ lit "::" ++ str_int (Z.of_nat i),
                              chunk,
                              <[lit "source_file" := PStr name]>
                                (<[lit "source_path" := PStr (path_join KB_DIR name)]>
                                   (<[lit "chunk_index" := PInt (Z.of_nat i)]> ∅))))
                       chunks) files
    /\ Forall (fun '(name, content, chunks) =>
                 length (take 16 (Sha256.hexdigest content)) = 16) files
    /\ NoDup (map (fun r => fst (fst r)) rows).
Proof.
  apply (build_ids_unique Samples.small_cwd Samples.small_entries).
  - reflexivity.
  - apply (bool_decide_unpack _). vm_compute. exact I.
  - apply (bool_decide_unpack _). vm_compute. exact I.
Defined.

(** The ids and the texts a build stores, in the order in which it
    stores them: over a knowledge-base directory (entry names distinct
    and without slash), file after file and, within a file, chunk after
    chunk of the text read from it, each text under the id made of the
    file name, the first 16 characters of the SHA-256 hex digest of the
    file's bytes, and the position of the chunk among the chunks of that
    file (from 0) in decimal, joined by two colons. All the ids are
    pairwise distinct. *)
Theorem chunk_ids_distinct (cwd entries : list (pystr * node)) :
  lookup_entry KB_DIR cwd = Some (Dir entries) ->
  NoDup (map fst entries) ->
  Forall (fun e => 47%N ∉ fst e) entries ->
  exists (files : list (pystr * list N * list pystr)) rows,
    collect (load_docs cwd KB_DIR) = Some rows
    /\ Forall (fun '(name, content, chunks) =>
                 In (name, File content) entries
                 /\ chunk_text (read_text content) = Some chunks) files
    /\ map fst rows
       = flat_map (fun '(name, content, chunks) =>
                     imap (fun i chunk =>
                             (name ++ lit "::" ++ take 16 (Sha256.hexdigest content)
                                ++ lit "::" ++ str_int (Z.of_nat i), chunk))
                       chunks) files
    /\ Forall (fun '(name, content, chunks) =>
                 length (take 16 (Sha256.hexdigest content)) = 16) files
    /\ NoDup (map (fun r => fst (fst r)) rows).
Proof.
  intros Hl Hnd Hs.
  destruct (load_docs_names entries Hnd Hs) as [Hnames Hfiles].
  unfold load_docs, glob_star. rewrite Hl.
  destruct (collect_ids _ Hnames) as (rows & Hc & Hrows & _).
  { eapply Forall_impl; [exact Hfiles|].
    intros d (content & _ & -> & _). apply file_hash_length. }
  destruct (collect_files entries _ Hfiles) as (files & rows' & Hc' & Hf & Hr).
  rewrite Hc in Hc'. injection Hc' as <-.
  exists files, rows. split; [exact Hc|]. split; [exact Hf|].
  split; [|split; [|exact Hrows]].
  - rewrite Hr. clear. induction files as [|[[name content] chunks] files IH];
      [reflexivity|].
    cbn [flat_map]. rewrite map_app, IH. f_equal.
    apply imap_fst. reflexivity.
  - apply Forall_forall. intros [[name content] chunks] _. apply file_hash_length.
Qed.

Lemma chunk_ids_distinct_witness :
  exists (files : list (pystr * list N * list pystr)) rows,
    collect (load_docs Samples.small_cwd KB_DIR) = Some rows
    /\ Forall (fun '(name, content, chunks) =>
                 In (name, File content) Samples.small_entries
                 /\ chunk_text (read_text content) = Some chunks) files
    /\ map fst rows
       = flat_map (fun '(name, content, chunks) =>
                     imap (fun i chunk =>
                             (name ++ lit "::" ++ take 16 (Sha256.hexdigest content)
                                ++ lit "::" ++ str_int (Z.of_nat i), chunk))
                       chunks) files
    /\ Forall (fun '(name, content, chunks) =>
                 length (take 16 (Sha256.hexdigest content)) = 16) files
    /\ NoDup (map (fun r => fst (fst r)) rows).
Proof.
  apply (chunk_ids_distinct Samples.small_cwd Samples.small_entries).
  - reflexivity.
  - apply (bool_decide_unpack _). vm_compute. exact I.
  - apply (bool_decide_unpack _). vm_compute. exact I.
Defined.

End IndexFacts.

(** ** More on the chunker *)

Module ChunkerExtras.

Import BuildIndex PyStrFacts ChunkerFacts.

Local Open Scope Z_scope.

(** *** Where the windows are *)

Lemma window_loop_index (size overlap n : Z) (fuel : nat) (start : Z) ws :
  0 <= overlap < size -> 0 <= start ->
  window_loop size overlap n fuel start = Some ws ->
  forall i w, ws !! i = Some w ->
    fst w = start + Z.of_nat i * (size - overlap)
    /\ snd w = Z.min (fst w + size) n /\ fst w < n.
Proof.
  intros Hos. revert start ws.
  induction fuel as [|fuel IH]; intros start ws H0; simpl.
  - destruct (Z.ltb_spec start n); [discriminate|].
    intros [= <-] i w Hi. rewrite lookup_nil in Hi. discriminate.
  - destruct (Z.ltb_spec start n) as [Hlt|Hge];
      [|intros [= <-] i w Hi; rewrite lookup_nil in Hi; discriminate].
    destruct (Z.eqb_spec (Z.min (start + size) n) n) as [He|Hne].
    + intros [= <-] [|i] w Hi; [|rewrite lookup_cons, lookup_nil in Hi; discriminate].
      injection Hi as <-. simpl. lia.
    + destruct (window_loop _ _ _ _ _) as [ws'|] eqn:E; [|discriminate].
      intros [= <-] [|i] w Hi.
      * injection Hi as <-. simpl. lia.
      * rewrite lookup_cons in Hi.
        destruct (Z.ltb_spec (Z.min (start + size) n - overlap) 0) as [Hneg|Hpos];
          [lia|].
        assert (Hs : 0 <= Z.min (start + size) n - overlap) by lia.
        destruct (IH _ _ Hs E i w Hi) as (Hf & Hsn & Hn).
        split; [lia|]. split; [exact Hsn | exact Hn].
Qed.

Lemma length_omap_le {A B} (f : A -> option B) (l : list A) :
  (length (omap f l) <= length l)%nat.
Proof.
  induction l as [|x l IH]; [reflexivity|].
  change (omap f (x :: l))
    with (match f x with Some y => y :: omap f l | None => omap f l end).
  destruct (f x); cbn [length]; lia.
Qed.

(** With [0 <= overlap < size], window [i] of the chunker starts at
    character [i * (size - overlap)] and is [size] long, clipped to the
    end of the text; so a text of [n] characters gives fewer than
    [n / (size - overlap) + 1] windows, and no more chunks than windows. *)
Theorem chunk_windows_positions (size overlap : Z) (text : pystr) (fuel : nat) :
  0 <= overlap < size -> (length text <= fuel)%nat ->
  exists ws chunks,
    chunk_windows size overlap fuel (Z.of_nat (length text)) = Some ws
    /\ chunk_text_with size overlap fuel text = Some chunks
    /\ chunks = omap (window_chunk text) ws
    /\ (forall i w, ws !! i = Some w ->
          fst w = Z.of_nat i * (size - overlap)
          /\ snd w = Z.min (fst w + size) (Z.of_nat (length text)))
    /\ Z.of_nat (length ws) * (size - overlap)
       < Z.of_nat (length text) + (size - overlap)
    /\ (length chunks <= length ws)%nat.
Proof.
  intros Hos Hf.
  destruct (chunk_text_run size overlap text fuel (proj2 Hos) Hf)
    as (ws & Hws & Hc).
  exists ws, (omap (window_chunk text) ws).
  split; [exact Hws|]. split; [exact Hc|]. split; [reflexivity|].
  pose proof (window_loop_index size overlap _ _ _ _ Hos (Z.le_refl 0) Hws) as Hi.
  split; [|split].
  - intros i w Hw. destruct (Hi i w Hw) as (H1 & H2 & _). split; [lia | exact H2].
  - destruct (length ws) as [|k] eqn:Ek; [lia|].
    destruct (lookup_lt_is_Some_2 ws k) as [w Hw]; [lia|].
    destruct (Hi k w Hw) as (H1 & _ & H3). lia.
  - apply length_omap_le.
Qed.

Lemma chunk_windows_positions_witness :
  exists ws chunks,
    chunk_windows 10 3 15 (Z.of_nat (length (lit "AAAAABBBBBCCCCC"))) = Some ws
    /\ chunk_text_with 10 3 15 (lit "AAAAABBBBBCCCCC") = Some chunks
    /\ chunks = omap (window_chunk (lit "AAAAABBBBBCCCCC")) ws
    /\ (forall i w, ws !! i = Some w ->
          fst w = Z.of_nat i * (10 - 3)
          /\ snd w = Z.min (fst w + 10)
                       (Z.of_nat (length (lit "AAAAABBBBBCCCCC"))))
    /\ Z.of_nat (length ws) * (10 - 3)
       < Z.of_nat (length (lit "AAAAABBBBBCCCCC")) + (10 - 3)
    /\ (length chunks <= length ws)%nat.
Proof.
  apply (chunk_windows_positions 10 3 (lit "AAAAABBBBBCCCCC") 15);
    [lia | simpl; lia].
Defined.

(** *** An overlap that is not below the size *)

Lemma window_loop_diverges (size overlap n : Z) (fuel : nat) :
  0 < size <= overlap -> size < n ->
  window_loop size overlap n fuel 0 = None.
Proof.
  intros Hso Hn. induction fuel as [|fuel IH]; cbn [window_loop].
  - destruct (Z.ltb_spec 0 n); [reflexivity | lia].
  - destruct (Z.ltb_spec 0 n); [|lia].
    destruct (Z.eqb_spec (Z.min (0 + size) n) n); [lia|].
    destruct (Z.ltb_spec (Z.min (0 + size) n - overlap) 0) as [Hneg|Hpos].
    + rewrite IH. reflexivity.
    + replace (Z.min (0 + size) n - overlap) with 0 by lia.
      rewrite IH. reflexivity.
Qed.

(** With a positive size that does not exceed the overlap, the loop
    never returns on a text longer than the size: the window stays at
    the start of the text, whatever the number of iterations allowed. *)
Theorem chunk_text_diverges (size overlap : Z) (text : pystr) (fuel : nat) :
  0 < size <= overlap -> size < Z.of_nat (length text) ->
  chunk_text_with size overlap fuel text = None.
Proof.
  intros Hso Hn. rewrite chunk_text_windows. unfold chunk_windows.
  rewrite window_loop_diverges by assumption. reflexivity.
Qed.

Lemma chunk_text_diverges_witness :
  chunk_text_with 3 3 1000 (lit "AAAAABBBBBCCCCC") = None.
Proof.
  apply (chunk_text_diverges 3 3 (lit "AAAAABBBBBCCCCC") 1000); simpl; lia.
Defined.

(** *** Short, blank and ordinary texts *)

Lemma slice_full (s : pystr) : slice s 0 (Z.of_nat (length s)) = s.
Proof.
  unfold slice. rewrite !adjust_index_nonneg by lia.
  rewrite !Z.min_l by lia.
  rewrite Z.sub_0_r, Nat2Z.id. cbn [Z.to_nat drop].
  apply firstn_all.
Qed.

Lemma chunk_loop_single (size overlap : Z) (text : pystr) (fuel : nat)
    (chunks : list pystr) :
  0 < Z.of_nat (length text) <= size ->
  chunk_loop size overlap text (S fuel) 0 chunks
  = Some (if truthy (strip text) then chunks ++ [strip text] else chunks).
Proof.
  intros Hn. cbn [chunk_loop]. cbv zeta.
  destruct (Z.ltb_spec 0 (Z.of_nat (length text))); [|lia].
  rewrite Z.min_r by lia. rewrite slice_full, Z.eqb_refl. reflexivity.
Qed.

(** A text that is not empty and fits in one chunk is returned as one
    chunk, trimmed; as no chunk when it is all white space. *)
Theorem chunk_text_short (text : pystr) :
  text <> [] -> (length text <= 800)%nat ->
  chunk_text text = Some (if truthy (strip text) then [strip text] else []).
Proof.
  intros Hne Hlen. unfold chunk_text, chunk_text_with.
  destruct (length text) as [|k] eqn:Ek; [destruct text; [contradiction | discriminate]|].
  rewrite <- Ek. replace (length text) with (S k) at 1 by exact (eq_sym Ek).
  apply chunk_loop_single. unfold CHUNK_SIZE. lia.
Qed.

Lemma chunk_text_short_witness :
  chunk_text (lit "  Fees are waived.  ")
  = Some (if truthy (strip (lit "  Fees are waived.  "))
          then [strip (lit "  Fees are waived.  ")] else []).
Proof.
  apply (chunk_text_short (lit "  Fees are waived.  ")); [discriminate | simpl; lia].
Defined.

Lemma lstrip_suffix (s : pystr) : exists pre, s = pre ++ lstrip s.
Proof.
  induction s as [|c s [pre IH]]; [now exists []|]. cbn [lstrip].
  destruct (isspace c); [|now exists []].
  exists (c :: pre). cbn [app]. now rewrite <- IH.
Qed.

Lemma rstrip_prefix (s : pystr) : exists post, s = rstrip s ++ post.
Proof.
  unfold rstrip. destruct (lstrip_suffix (rev s)) as [pre H].
  exists (rev pre). rewrite <- rev_app_distr, <- H. now rewrite rev_involutive.
Qed.

Lemma strip_infix (s : pystr) : exists pre post, s = pre ++ strip s ++ post.
Proof.
  unfold strip. destruct (lstrip_suffix s) as [pre H].
  destruct (rstrip_prefix (lstrip s)) as [post H'].
  exists pre, post. now rewrite <- H', <- H.
Qed.

Lemma slice_infix (s : pystr) (lo hi : Z) :
  exists pre post, s = pre ++ slice s lo hi ++ post.
Proof.
  unfold slice. cbv zeta.
  set (j := Z.to_nat (adjust_index (Z.of_nat (length s)) lo)).
  set (k := Z.to_nat (_ - _)).
  exists (take j s), (drop k (drop j s)).
  now rewrite (take_drop k), (take_drop j).
Qed.

(** Every chunk is a piece of the text: the chunker never changes,
    adds or reorders characters, whatever the size and the overlap. *)
Theorem chunk_is_substring (size overlap : Z) (text : pystr) (fuel : nat)
    (chunks : list pystr) :
  chunk_text_with size overlap fuel text = Some chunks ->
  Forall (fun c => exists pre post, text = pre ++ c ++ post) chunks.
Proof.
  rewrite chunk_text_windows.
  destruct (chunk_windows _ _ _ _) as [ws|]; [|discriminate].
  intros [= <-]. apply Forall_forall. intros c Hc.
  apply list_elem_of_omap in Hc as (w & _ & Hw).
  unfold window_chunk in Hw. cbv zeta in Hw.
  destruct (truthy _); [|discriminate]. injection Hw as <-.
  destruct (slice_infix text (fst w) (snd w)) as (p1 & q1 & H1).
  destruct (strip_infix (slice text (fst w) (snd w))) as (p2 & q2 & H2).
  exists (p1 ++ p2), (q2 ++ q1).
  rewrite H1 at 1. rewrite H2 at 1. now rewrite <- !app_assoc.
Qed.

Lemma chunk_is_substring_witness :
  Forall (fun c => exists pre post, lit "AAAAABBBBBCCCCC" = pre ++ c ++ post)
    [lit "AAAAABBBBB"; lit "BBBCCCCC"].
Proof.
  apply (chunk_is_substring 10 3 (lit "AAAAABBBBBCCCCC") 15). reflexivity.
Defined.

Lemma lstrip_blank (s : pystr) :
  Forall (fun c => isspace c = true) s -> lstrip s = [].
Proof.
  induction 1 as [|c s Hc _ IH]; [reflexivity|]. cbn [lstrip]. now rewrite Hc.
Qed.

Lemma strip_blank (s : pystr) :
  Forall (fun c => isspace c = true) s -> strip s = [].
Proof. intros H. unfold strip. now rewrite (lstrip_blank s H). Qed.

Lemma omap_none {A B} (f : A -> option B) (l : list A) :
  (forall x, f x = None) -> omap f l = [].
Proof.
  intros Hf. induction l as [|x l IH]; [reflexivity|].
  change (omap f (x :: l))
    with (match f x with Some y => y :: omap f l | None => omap f l end).
  now rewrite Hf.
Qed.

Lemma chunk_text_blank_chunks (text : pystr) :
  Forall (fun c => isspace c = true) text -> chunk_text text = Some [].
Proof.
  intros Hb. unfold chunk_text.
  destruct (chunk_text_run CHUNK_SIZE CHUNK_OVERLAP text (length text))
    as (ws & _ & ->); [unfold CHUNK_SIZE, CHUNK_OVERLAP; lia | reflexivity|].
  f_equal. apply omap_none. intros w. unfold window_chunk. cbv zeta.
  rewrite strip_blank; [reflexivity|].
  unfold slice. cbv zeta. apply Forall_take, Forall_drop, Hb.
Qed.

(** A text made of white space only gives no chunk. *)
Theorem chunk_text_blank (text : pystr) :
  Forall (fun c => isspace c = true) text -> chunk_text text = Some [].
Proof. apply chunk_text_blank_chunks. Qed.

Lemma chunk_text_blank_witness :
  chunk_text [32; 10; 9; 32; 160; 13; 10]%N = Some [].
Proof.
  apply (chunk_text_blank [32; 10; 9; 32; 160; 13; 10]%N).
  repeat constructor.
Defined.

End ChunkerExtras.

(** ** More on loading and hashing *)

Module LoaderExtras.

Import TextIO BuildIndex.

(** *** The content hash *)

Lemma hex_digit_range (d : Z) :
  (0 <= d < 16)%Z ->
  (48 <= Sha256.hex_digit d <= 57 \/ 97 <= Sha256.hex_digit d <= 102)%N.
Proof.
  intros Hd. unfold Sha256.hex_digit.
  destruct (Z.ltb_spec d 10); lia.
Qed.

Lemma hex8_hex (w : Z) :
  Forall (fun c => (48 <= c <= 57 \/ 97 <= c <= 102)%N) (Sha256.hex8 w).
Proof.
  unfold Sha256.hex8. apply Forall_forall. intros c Hc.
  apply list_elem_of_In, in_map_iff in Hc as (i & <- & _).
  apply hex_digit_range.
  change 15%Z with (Z.ones 4). rewrite Z.land_ones by lia.
  apply Z.mod_pos_bound. lia.
Qed.

(** The hash of a file is 16 characters long, each a decimal digit or a
    letter from [a] to [f]. *)
Theorem file_hash_hex (content : list N) :
  length (file_hash content) = 16
  /\ Forall (fun c => (48 <= c <= 57 \/ 97 <= c <= 102)%N) (file_hash content).
Proof.
  split; [apply IndexFacts.file_hash_length|].
  unfold file_hash. apply Forall_take. unfold Sha256.hexdigest. cbv zeta.
  repeat (apply Forall_app; split; [apply hex8_hex|]). apply hex8_hex.
Qed.

(** *** The documents of a directory *)

Lemma load_doc_eligible (name : pystr) (nd : node) :
  47%N ∉ name -> hidden name = false ->
  load_doc (path_join KB_DIR name, nd)
  = if eligible (name, nd) then
      match nd with
      | File content =>
          Some (Doc (path_join KB_DIR name) name (read_text content)
                  (file_hash content))
      | Dir _ => None
      end
    else None.
Proof.
  intros Hn Hh. unfold load_doc, eligible. cbn [fst snd].
  destruct nd as [content|]; [|reflexivity].
  rewrite Hh. cbn [negb andb].
  rewrite !LoaderFacts.endswith_path
    by (repeat (apply not_elem_of_cons; split; [discriminate|]);
        apply not_elem_of_nil).
  destruct (endswith (lower name) (lit ".md") || endswith (lower name) (lit ".txt"));
    [|reflexivity].
  cbn [negb andb].
  destruct (length (read_text content) =? 0)%nat; [reflexivity|].
  cbn [negb]. now rewrite IndexFacts.basename_path.
Qed.

Lemma hidden_not_eligible (e : pystr * node) :
  hidden (fst e) <> false -> eligible e = false.
Proof.
  intros Hh. unfold eligible. destruct (snd e); [|reflexivity].
  destruct (hidden (fst e)); [reflexivity | contradiction].
Qed.

(** The documents loaded from the knowledge-base directory are its
    eligible entries, in the order of the listing: regular files whose
    name does not start with a dot and ends in [.md] or [.txt] in any
    case, with a text that is not empty. Each document carries the entry
    name as file name, the joined path, the decoded text and the hash of
    the bytes. *)
Theorem load_docs_eligible (cwd entries : list (pystr * node)) :
  lookup_entry KB_DIR cwd = Some (Dir entries) ->
  Forall (fun e => 47%N ∉ fst e) entries ->
  map filename (load_docs cwd KB_DIR)
  = map fst (filter (fun e => eligible e = true) entries)
  /\ Forall (fun d =>
               text d <> []
               /\ path d = KB_DIR ++ 47%N :: filename d
               /\ exists content,
                    In (filename d, File content) entries
                    /\ text d = read_text content
                    /\ hash d = file_hash content)
       (load_docs cwd KB_DIR).
Proof.
  intros Hl Hs. unfold load_docs, glob_star. rewrite Hl. clear Hl.
  induction Hs as [|e entries He _ [IH1 IH2]]; [split; [reflexivity | constructor]|].
  assert (IH2' : Forall (fun d =>
               text d <> []
               /\ path d = KB_DIR ++ 47%N :: filename d
               /\ exists content,
                    In (filename d, File content) (e :: entries)
                    /\ text d = read_text content
                    /\ hash d = file_hash content)
       (omap load_doc
          (map (fun e => (path_join KB_DIR (fst e), snd e))
             (filter (fun e => hidden (fst e) = false) entries)))).
  { eapply Forall_impl; [exact IH2|].
    intros d (H1 & H2 & content & H3 & H4). split; [exact H1|]. split; [exact H2|].
    exists content. split; [right; exact H3 | exact H4]. }
  cbn [filter list_filter].
  destruct (decide (hidden (fst e) = false)) as [Hh|Hh].
  - cbn [map omap list_omap].
    rewrite (load_doc_eligible (fst e) (snd e) He Hh).
    replace (fst e, snd e) with e by now destruct e.
    destruct (decide (eligible e = true)) as [El|El].
    + rewrite El. destruct e as [name [content|entries']]; cbn [fst snd] in *.
      * cbn [map filename]. split; [cbn [fst]; f_equal; exact IH1|].
        apply Forall_cons. split; [|exact IH2'].
        cbn [text path filename hash].
        split; [|split; [apply LoaderFacts.path_join_kb_dir|]].
        -- unfold eligible in El. cbn [fst snd] in El.
           destruct (read_text content); [|discriminate].
           rewrite andb_false_r in El. discriminate.
        -- exists content. split; [left; reflexivity | split; reflexivity].
      * discriminate El.
    + apply not_true_is_false in El. rewrite El. split; assumption.
  - destruct (decide (eligible e = true)) as [El|El].
    + rewrite (hidden_not_eligible e Hh) in El. discriminate.
    + split; assumption.
Qed.

Lemma load_docs_eligible_witness :
  map filename (load_docs Samples.small_cwd KB_DIR)
  = map fst (filter (fun e => eligible e = true) Samples.small_entries)
  /\ Forall (fun d =>
               text d <> []
               /\ path d = KB_DIR ++ 47%N :: filename d
               /\ exists content,
                    In (filename d, File content) Samples.small_entries
                    /\ text d = read_text content
                    /\ hash d = file_hash content)
       (load_docs Samples.small_cwd KB_DIR).
Proof.
  apply (load_docs_eligible Samples.small_cwd Samples.small_entries).
  - reflexivity.
  - apply (bool_decide_unpack _). vm_compute. exact I.
Defined.

End LoaderExtras.

(** ** The store after a build *)

Module MainExtras.

Import TextIO BuildIndex.

Lemma load_docs_isdir (cwd : list (pystr * node)) :
  load_docs cwd KB_DIR <> [] -> isdir cwd KB_DIR = true.
Proof.
  unfold load_docs, glob_star, isdir.
  destruct (lookup_entry KB_DIR cwd) as [[|]|]; [contradiction | reflexivity | contradiction].
Qed.

Lemma zip4_columns {embedding : Type}
    (rows : list (pystr * pystr * metadata)) (embs : list embedding) :
  length embs = length rows ->
  map rec_id (zip4 (map (fun r => fst (fst r)) rows)
                (map (fun r => snd (fst r)) rows) (map snd rows) embs)
  = map (fun r => fst (fst r)) rows
  /\ map rec_document (zip4 (map (fun r => fst (fst r)) rows)
                         (map (fun r => snd (fst r)) rows) (map snd rows) embs)
     = map (fun r => snd (fst r)) rows.
Proof.
  revert embs. induction rows as [|r rows IH]; intros [|e embs] Hlen;
    try discriminate Hlen; [split; reflexivity|].
  injection Hlen as Hlen. destruct (IH embs Hlen) as [H1 H2].
  cbn [map zip4 rec_id rec_document]. now rewrite H1, H2.
Qed.

Lemma add_ok {embedding : Type} (max_batch_size : nat) (name : pystr)
    (ids docs : list pystr) (metas : list metadata) (embs : list embedding)
    (st : store embedding) (rs : list (record embedding)) :
  ids <> [] -> NoDup ids -> length ids <= max_batch_size ->
  st !! name = Some rs ->
  add max_batch_size name ids docs metas embs st
  = (ret tt, <[name := rs ++ zip4 ids docs metas embs]> st).
Proof.
  intros Hne Hnd Hlen Hl. unfold add. destruct ids as [|i ids]; [contradiction|].
  rewrite bool_decide_true by exact Hnd.
  destruct (Nat.ltb_spec max_batch_size (length (i :: ids))) as [Hlt|_]; [lia|].
  now rewrite Hl.
Qed.

Lemma add_over_limit {embedding : Type} (max_batch_size : nat) (name : pystr)
    (ids docs : list pystr) (metas : list metadata) (embs : list embedding)
    (st : store embedding) :
  NoDup ids -> max_batch_size < length ids ->
  add max_batch_size name ids docs metas embs st = (raise ValueError, st).
Proof.
  intros Hnd Hlen. unfold add. destruct ids as [|i ids]; [reflexivity|].
  rewrite bool_decide_true by exact Hnd.
  destruct (Nat.ltb_spec max_batch_size (length (i :: ids))) as [_|Hle]; [|lia].
  reflexivity.
Qed.

Section Main.
Context {embedding : Type}.
Variable encode : list pystr -> list embedding.
Variable max_batch_size : nat.

(** What [main] does to the store once the rows are collected. *)
Lemma main_store (cwd : list (pystr * node)) (st : store embedding)
    (rows : list (pystr * pystr * metadata)) :
  load_docs cwd KB_DIR <> [] ->
  collect (load_docs cwd KB_DIR) = Some rows ->
  exists st1,
    st1 !! COLLECTION_NAME = Some []
    /\ (forall name, name <> COLLECTION_NAME -> st1 !! name = st !! name)
    /\ main encode max_batch_size cwd st
       = Some (add max_batch_size COLLECTION_NAME
                 (map (fun r => fst (fst r)) rows)
                 (map (fun r => snd (fst r)) rows) (map snd rows)
                 (encode (map (fun r => snd (fst r)) rows)) st1).
Proof.
  intros Hd Hc. unfold main. rewrite (load_docs_isdir cwd Hd). cbn [negb].
  destruct (load_docs cwd KB_DIR) as [|d ds]; [contradiction|].
  rewrite Hc. cbv zeta.
  assert (H1 : snd (delete_collection COLLECTION_NAME st) !! COLLECTION_NAME = None).
  { unfold delete_collection.
    destruct (st !! COLLECTION_NAME) eqn:E; cbn [snd];
      [apply lookup_delete_eq | exact E]. }
  assert (H2 : forall name, name <> COLLECTION_NAME ->
                 snd (delete_collection COLLECTION_NAME st) !! name = st !! name).
  { intros name Hn. unfold delete_collection.
    destruct (st !! COLLECTION_NAME); cbn [snd];
      [apply lookup_delete_ne; congruence | reflexivity]. }
  unfold create_collection. rewrite H1.
  eexists. split; [apply lookup_insert_eq|]. split; [|reflexivity].
  intros name Hn. rewrite lookup_insert_ne by congruence. now apply H2.
Qed.

(** A build over a knowledge-base directory (entry names distinct and
    without slash), with an encoder that gives one embedding per text.
    When it yields at least one chunk and no more chunks than the
    client's batch limit, [main] returns normally; afterwards the
    collection holds exactly one record per chunk, with the ids and the
    texts of the rows in order, whatever it held before, and every other
    collection of the store is as it was. When it yields more chunks
    than the batch limit, [main] raises instead: the single [add] is
    refused, after the collection has been deleted and created again, so
    that it is left empty. *)
Theorem main_rebuilds_collection (cwd entries : list (pystr * node))
    (st : store embedding) :
  lookup_entry KB_DIR cwd = Some (Dir entries) ->
  NoDup (map fst entries) ->
  Forall (fun e => 47%N ∉ fst e) entries ->
  (forall texts, length (encode texts) = length texts) ->
  exists rows,
    collect (load_docs cwd KB_DIR) = Some rows
    /\ (rows <> [] -> length rows <= max_batch_size ->
        exists st' records,
          main encode max_batch_size cwd st = Some (ret tt, st')
          /\ st' !! COLLECTION_NAME = Some records
          /\ map rec_id records = map (fun r => fst (fst r)) rows
          /\ map rec_document records = map (fun r => snd (fst r)) rows
          /\ forall name, name <> COLLECTION_NAME -> st' !! name = st !! name)
    /\ (max_batch_size < length rows ->
        exists e st',
          main encode max_batch_size cwd st = Some (raise e, st')
          /\ st' !! COLLECTION_NAME = Some []
          /\ forall name, name <> COLLECTION_NAME -> st' !! name = st !! name).
Proof.
  intros Hl Hnd Hs Henc.
  destruct (IndexFacts.load_docs_names entries Hnd Hs) as [Hnames Hfiles].
  assert (Hglob : load_docs cwd KB_DIR
                  = omap load_doc
                      (map (fun e => (path_join KB_DIR (fst e), snd e))
                         (filter (fun e => hidden (fst e) = false) entries))).
  { unfold load_docs, glob_star. now rewrite Hl. }
  rewrite <- Hglob in Hnames, Hfiles.
  destruct (IndexFacts.collect_ids _ Hnames) as (rows & Hc & Hrows & _).
  { eapply Forall_impl; [exact Hfiles|].
    intros d (content & _ & -> & _). apply IndexFacts.file_hash_length. }
  exists rows. split; [exact Hc|].
  assert (Hmain : rows <> [] ->
            exists st1,
              st1 !! COLLECTION_NAME = Some []
              /\ (forall name, name <> COLLECTION_NAME -> st1 !! name = st !! name)
              /\ main encode max_batch_size cwd st
                 = Some (add max_batch_size COLLECTION_NAME
                           (map (fun r => fst (fst r)) rows)
                           (map (fun r => snd (fst r)) rows) (map snd rows)
                           (encode (map (fun r => snd (fst r)) rows)) st1)).
  { intros Hne. apply main_store; [|exact Hc].
    intros E. rewrite E in Hc. injection Hc as <-. contradiction. }
  split.
  - intros Hne Hlen. destruct (Hmain Hne) as (st1 & H1 & H2 & Hm).
    destruct (zip4_columns rows (encode (map (fun r => snd (fst r)) rows)))
      as [Hids Hdocs]; [now rewrite Henc, length_map|].
    assert (Hids0 : map (fun r => fst (fst r)) rows <> []).
    { destruct rows; [contradiction | discriminate]. }
    assert (Hlen0 : length (map (fun r => fst (fst r)) rows) <= max_batch_size).
    { now rewrite length_map. }
    eexists _, _. rewrite Hm.
    rewrite (add_ok _ _ _ _ _ _ _ [] Hids0 Hrows Hlen0 H1).
    split; [reflexivity|]. split; [apply lookup_insert_eq|].
    cbn [app]. split; [exact Hids|]. split; [exact Hdocs|].
    intros name Hn. rewrite lookup_insert_ne by congruence. now apply H2.
  - intros Hlen.
    assert (Hne : rows <> []).
    { intros ->. cbn [length] in Hlen. lia. }
    destruct (Hmain Hne) as (st1 & H1 & H2 & Hm).
    exists ValueError, st1. rewrite Hm.
    rewrite add_over_limit; [|exact Hrows | now rewrite length_map].
    split; [reflexivity|]. split; [exact H1 | exact H2].
Qed.

(** A build over documents that are all white space (so that no chunk
    is made) does not leave the store as it was: the collection has been
    deleted and created again when [add] refuses the empty list of ids,
    and is empty afterwards. *)
Theorem main_blank_documents (cwd : list (pystr * node)) (st : store embedding) :
  load_docs cwd KB_DIR <> [] ->
  Forall (fun d => Forall (fun c => isspace c = true) (text d))
    (load_docs cwd KB_DIR) ->
  exists st',
    main encode max_batch_size cwd st = Some (raise ValueError, st')
    /\ st' !! COLLECTION_NAME = Some []
    /\ forall name, name <> COLLECTION_NAME -> st' !! name = st !! name.
Proof.
  intros Hd Hb.
  assert (Hc : collect (load_docs cwd KB_DIR) = Some []).
  { clear Hd. induction Hb as [|d ds Hbd _ IH]; [reflexivity|].
    cbn [collect]. rewrite (ChunkerExtras.chunk_text_blank_chunks _ Hbd), IH.
    reflexivity. }
  destruct (main_store cwd st [] Hd Hc) as (st1 & H1 & H2 & Hm).
  exists st1. rewrite Hm. split; [reflexivity|]. split; [exact H1 | exact H2].
Qed.

End Main.

Lemma main_rebuilds_collection_witness :
  (exists st' records,
     main (fun texts => map length texts) Samples.batch_limit Samples.small_cwd ∅
     = Some (ret tt, st')
     /\ st' !! COLLECTION_NAME = Some records
     /\ map rec_document records
        = [lit "Fees are waived."; lit "Fees are waived."])
  /\ (exists e st',
        main (fun texts => map length texts) 1 Samples.small_cwd ∅
        = Some (raise e, st')
        /\ st' !! COLLECTION_NAME = Some []).
Proof.
  split.
  - destruct (main_rebuilds_collection (fun texts => map length texts) Samples.batch_limit
                Samples.small_cwd Samples.small_entries ∅)
      as (rows & Hc & Hok & _).
    + reflexivity.
    + apply (bool_decide_unpack _). vm_compute. exact I.
    + apply (bool_decide_unpack _). vm_compute. exact I.
    + intros texts. apply length_map.
    + assert (Ht : Some (map (fun r => snd (fst r)) rows)
                   = Some [lit "Fees are waived."; lit "Fees are waived."]).
      { change (option_map (map (fun r => snd (fst r))) (Some rows)
                = Some [lit "Fees are waived."; lit "Fees are waived."]).
        rewrite <- Hc. vm_compute. reflexivity. }
      injection Ht as Ht.
      destruct Hok as (st' & records & Hm & Hl & _ & Hdocs & _).
      * intros ->. discriminate Ht.
      * rewrite <- (length_map (fun r => snd (fst r)) rows), Ht.
        cbn [length]. unfold Samples.batch_limit. lia.
      * exists st', records. rewrite Hdocs, Ht. auto.
  - destruct (main_rebuilds_collection (fun texts => map length texts) 1
                Samples.small_cwd Samples.small_entries ∅)
      as (rows & Hc & _ & Hbig).
    + reflexivity.
    + apply (bool_decide_unpack _). vm_compute. exact I.
    + apply (bool_decide_unpack _). vm_compute. exact I.
    + intros texts. apply length_map.
    + assert (Ht : Some (length rows) = Some 2).
      { change (option_map (@length _) (Some rows) = Some 2).
        rewrite <- Hc. vm_compute. reflexivity. }
      injection Ht as Ht.
      destruct Hbig as (e & st' & Hm & Hl & _); [lia|].
      exists e, st'. auto.
Defined.

Lemma main_blank_documents_witness :
  exists st',
    main (fun texts => map length texts) Samples.batch_limit Samples.blank_cwd ∅
    = Some (raise ValueError, st')
    /\ st' !! COLLECTION_NAME = Some []
    /\ forall name, name <> COLLECTION_NAME ->
         st' !! name = (∅ : store nat) !! name.
Proof.
  apply (main_blank_documents (fun texts => map length texts) Samples.batch_limit
           Samples.blank_cwd ∅).
  - discriminate.
  - repeat constructor.
Defined.

End MainExtras.

(** ** More on retrieval *)

Module RetrievalExtras.

Import Geminitestv1 PyStrFacts RetrievalFacts.

Lemma none_in_or_not {A} (l : list (option A)) : None ∈ l \/ None ∉ l.
Proof.
  induction l as [|[a|] l [IH|IH]].
  - right. apply not_elem_of_nil.
  - left. now apply list_elem_of_further.
  - right. apply not_elem_of_cons. split; [discriminate | exact IH].
  - left. apply list_elem_of_here.
  - left. apply list_elem_of_here.
Qed.

Section Retrieval.
Context {embedding : Type}.
Variable encode : pystr -> embedding.
Variable collection_query : embedding -> Z -> query_result.

(** A run over rows without a [None] metadata entry. *)
Lemma retrieve_run (query : pystr) (k : Z)
    (docs : list pyval) (metas : list (option metadata)) (ids : list pystr) :
  first_row (documents (collection_query (encode query) k)) = ret docs ->
  first_row (metadatas (collection_query (encode query) k)) = ret metas ->
  first_row (Chroma.ids (collection_query (encode query) k)) = ret ids ->
  (forall i, i < length docs -> metas !! i <> Some None) ->
  exists citations blocks,
    retrieve_context encode collection_query query k
    = ret (strip (join block_separator blocks), citations)
    /\ length citations = length docs /\ length blocks = length docs
    /\ forall i doc, docs !! i = Some doc ->
         exists c, citations !! i = Some c
           /\ blocks !! i
              = Some (context_block i (cit_source_file c) (cit_chunk_index c) doc)
           /\ cit_id c = default (lit "chunk_" ++ str_int (Z.of_nat i)) (ids !! i)
           /\ cit_source_file c
              = default (PStr (lit "unknown"))
                  (default ∅ (mjoin (metas !! i)) !! lit "source_file")
           /\ cit_chunk_index c
              = default (PInt (Z.of_nat i))
                  (default ∅ (mjoin (metas !! i)) !! lit "chunk_index").
Proof.
  intros Hd Hm Hi Hmeta.
  destruct (rank_loop_ok metas ids docs 0 [] [] Hmeta)
    as (cs & bs & Hl & Hcs & Hbs & Hj).
  exists cs, bs. split; [|split; [exact Hcs|split; [exact Hbs|]]].
  - unfold retrieve_context. rewrite Hd, Hm, Hi. cbn [bind ret].
    unfold ret in Hl. rewrite Hl. reflexivity.
  - intros i doc Hdoc.
    destruct (Hj i doc Hdoc) as (c & b & Hstep & Hc & Hb).
    assert (Hlt : i < length docs) by (eapply lookup_lt_Some; exact Hdoc).
    destruct (rank_step_dict metas ids i doc (Hmeta i Hlt))
      as (c' & Hstep' & Hid & Hsf & Hci).
    simpl in Hstep. rewrite Hstep' in Hstep. injection Hstep as -> <-.
    exists c. repeat split; assumption.
Qed.

(** Each citation takes its id from the ids row and its two fields from
    the metadata dict of its rank; where the ids row or the metadatas
    row is too short, or the dict lacks the key, the id is [chunk_<i>],
    the source file is ["unknown"] and the chunk index is the rank [i],
    counted from 0. *)
Theorem retrieve_context_citations (query : pystr) (k : Z)
    (docs : list pyval) (metas : list (option metadata)) (ids : list pystr) :
  first_row (documents (collection_query (encode query) k)) = ret docs ->
  first_row (metadatas (collection_query (encode query) k)) = ret metas ->
  first_row (Chroma.ids (collection_query (encode query) k)) = ret ids ->
  (forall i, i < length docs -> metas !! i <> Some None) ->
  exists context citations,
    retrieve_context encode collection_query query k = ret (context, citations)
    /\ length citations = length docs
    /\ (forall i, i < length docs ->
          citations !! i
          = Some (Citation
                    (default (lit "chunk_" ++ str_int (Z.of_nat i)) (ids !! i))
                    (default (PStr (lit "unknown"))
                       (default ∅ (mjoin (metas !! i)) !! lit "source_file"))
                    (default (PInt (Z.of_nat i))
                       (default ∅ (mjoin (metas !! i)) !! lit "chunk_index"))))
    /\ (forall i, i < length docs -> metas !! i = None ->
          exists cid,
            citations !! i
            = Some (Citation cid (PStr (lit "unknown")) (PInt (Z.of_nat i)))).
Proof.
  intros Hd Hm Hi Hmeta.
  destruct (retrieve_run query k docs metas ids Hd Hm Hi Hmeta)
    as (cs & bs & Hr & Hcs & _ & Hj).
  assert (Hall : forall i, i < length docs ->
            cs !! i
            = Some (Citation
                      (default (lit "chunk_" ++ str_int (Z.of_nat i)) (ids !! i))
                      (default (PStr (lit "unknown"))
                         (default ∅ (mjoin (metas !! i)) !! lit "source_file"))
                      (default (PInt (Z.of_nat i))
                         (default ∅ (mjoin (metas !! i)) !! lit "chunk_index")))).
  { intros i Hlt. destruct (lookup_lt_is_Some_2 docs i Hlt) as [doc Hdoc].
    destruct (Hj i doc Hdoc) as (c & Hc & _ & Hid & Hsf & Hci).
    rewrite Hc. destruct c as [cid sf ci].
    cbn [cit_id cit_source_file cit_chunk_index] in Hid, Hsf, Hci.
    now rewrite Hid, Hsf, Hci. }
  eexists _, cs. split; [exact Hr|]. split; [exact Hcs|]. split; [exact Hall|].
  intros i Hlt Hnone. eexists. rewrite (Hall i Hlt), Hnone. reflexivity.
Qed.

(** A [None] metadata entry among the ranked documents makes the call
    raise. *)
Lemma retrieve_context_none_raises (query : pystr) (k : Z)
    (docs : list pyval) (metas : list (option metadata)) (ids : list pystr)
    (i : nat) :
  first_row (documents (collection_query (encode query) k)) = ret docs ->
  first_row (metadatas (collection_query (encode query) k)) = ret metas ->
  first_row (Chroma.ids (collection_query (encode query) k)) = ret ids ->
  i < length docs -> metas !! i = Some None ->
  retrieve_context encode collection_query query k = raise AttributeError.
Proof.
  intros Hd Hm Hi Hlt Hnone.
  unfold retrieve_context. rewrite Hd, Hm, Hi. cbn [bind ret].
  rewrite (rank_loop_none metas ids docs 0 i [] [] Hlt Hnone). reflexivity.
Qed.

(** With the rows obtained, [retrieve_context] raises [AttributeError]
    exactly when one of the metadata entries of the ranked documents is
    [None], and returns otherwise. *)
Theorem retrieve_context_fails_iff (query : pystr) (k : Z)
    (docs : list pyval) (metas : list (option metadata)) (ids : list pystr) :
  first_row (documents (collection_query (encode query) k)) = ret docs ->
  first_row (metadatas (collection_query (encode query) k)) = ret metas ->
  first_row (Chroma.ids (collection_query (encode query) k)) = ret ids ->
  (retrieve_context encode collection_query query k = raise AttributeError
   <-> None ∈ take (length docs) metas)
  /\ (None ∉ take (length docs) metas ->
      exists r, retrieve_context encode collection_query query k = ret r).
Proof.
  intros Hd Hm Hi.
  assert (Hok : None ∉ take (length docs) metas ->
                exists r, retrieve_context encode collection_query query k = ret r).
  { intros Hn.
    destruct (retrieve_run query k docs metas ids Hd Hm Hi) as (cs & bs & Hr & _).
    - intros i Hlt E. apply Hn. apply list_elem_of_lookup. exists i.
      now rewrite lookup_take_lt.
    - eexists. exact Hr. }
  split; [|exact Hok]. split.
  - intros Hraise.
    destruct (none_in_or_not (take (length docs) metas)) as [Hin|Hn]; [exact Hin|].
    destruct (Hok Hn) as [r Hr]. rewrite Hr in Hraise. discriminate.
  - intros Hin. apply list_elem_of_lookup in Hin as [i Hi'].
    assert (Hlt : i < length docs).
    { apply lookup_lt_Some in Hi'. rewrite length_take in Hi'. lia. }
    rewrite lookup_take_lt in Hi' by exact Hlt.
    exact (retrieve_context_none_raises query k docs metas ids i Hd Hm Hi Hlt Hi').
Qed.

(** *** The prompt *)

Lemma join_head (sep : pystr) (c : N) (b : pystr) (bs : list pystr) :
  exists t, join sep ((c :: b) :: bs) = c :: t.
Proof. destruct bs; cbn [join app]; eauto. Qed.

Lemma strip_nonspace_head (c : N) (s : pystr) :
  isspace c = false -> strip (c :: s) = c :: rstrip s.
Proof.
  intros Hc. unfold strip. rewrite (lstrip_fixed c s Hc). now apply rstrip_cons.
Qed.

(** The prompt sent for a user text. With the knowledge base switched
    off it is the text. With it switched on and no document returned it
    is the text as well; with a document returned, the context is not
    empty, begins with the marker of rank 1, has no white space at
    either end, and the prompt is the fixed head, the context, the
    question heading, the text and a newline. When retrieval raises, so
    does the enrichment: nothing is sent. *)
Theorem enriched_prompt_cases (text : pystr)
    (docs : list pyval) (metas : list (option metadata)) (ids : list pystr) :
  first_row (documents (collection_query (encode text) TOP_K)) = ret docs ->
  first_row (metadatas (collection_query (encode text) TOP_K)) = ret metas ->
  first_row (Chroma.ids (collection_query (encode text) TOP_K)) = ret ids ->
  enriched_prompt encode collection_query false text = ret text
  /\ (docs = [] -> enriched_prompt encode collection_query true text = ret text)
  /\ (docs <> [] -> None ∉ take (length docs) metas ->
      exists context rest,
        context = 91%N :: rest
        /\ strip context = context
        /\ enriched_prompt encode collection_query true text
           = ret (prompt_head ++ context ++ prompt_middle ++ text ++ [10%N]))
  /\ (None ∈ take (length docs) metas ->
      enriched_prompt encode collection_query true text = raise AttributeError).
Proof.
  intros Hd Hm Hi. split; [reflexivity|]. split; [|split].
  - intros ->. unfold enriched_prompt, retrieve_context.
    rewrite Hd, Hm, Hi. reflexivity.
  - intros Hne Hn.
    destruct (retrieve_run text TOP_K docs metas ids Hd Hm Hi)
      as (cs & bs & Hr & _ & Hbs & Hj).
    { intros i Hlt E. apply Hn. apply list_elem_of_lookup. exists i.
      now rewrite lookup_take_lt. }
    destruct docs as [|doc docs]; [contradiction|].
    destruct (Hj 0 doc eq_refl) as (c & _ & Hb & _).
    destruct bs as [|b bs]; [discriminate Hb|]. injection Hb as ->.
    destruct (join_head block_separator 91
                (str_int (Z.of_nat 0 + 1) ++ lit "] (source: "
                 ++ str (cit_source_file c) ++ lit ", chunk: "
                 ++ str (cit_chunk_index c) ++ lit ")" ++ [10%N] ++ str doc) bs)
      as [t Ht].
    change (91%N :: str_int (Z.of_nat 0 + 1) ++ lit "] (source: "
                 ++ str (cit_source_file c) ++ lit ", chunk: "
                 ++ str (cit_chunk_index c) ++ lit ")" ++ [10%N] ++ str doc)
      with (context_block 0 (cit_source_file c) (cit_chunk_index c) doc) in Ht.
    exists (strip (join block_separator
                     (context_block 0 (cit_source_file c) (cit_chunk_index c) doc
                      :: bs))), (rstrip t).
    split; [|split].
    + rewrite Ht. now apply strip_nonspace_head.
    + apply strip_idem.
    + unfold enriched_prompt. rewrite Hr. cbn [bind ret fst].
      unfold build_rag_prompt. rewrite Ht, strip_nonspace_head by reflexivity.
      reflexivity.
  - intros Hin. apply list_elem_of_lookup in Hin as [i Hi'].
    assert (Hlt : i < length docs).
    { apply lookup_lt_Some in Hi'. rewrite length_take in Hi'. lia. }
    rewrite lookup_take_lt in Hi' by exact Hlt.
    unfold enriched_prompt.
    now rewrite (retrieve_context_none_raises text TOP_K docs metas ids i
                   Hd Hm Hi Hlt Hi').
Qed.

End Retrieval.

Lemma retrieve_context_citations_witness :
  exists context citations,
    retrieve_context (fun q => q) (fun _ _ => Samples.two_results) (lit "fees") 4
    = ret (context, citations)
    /\ length citations = length Samples.two_docs
    /\ (forall i, i < length Samples.two_docs ->
          citations !! i
          = Some (Citation
                    (default (lit "chunk_" ++ str_int (Z.of_nat i))
                       (Samples.two_ids !! i))
                    (default (PStr (lit "unknown"))
                       (default ∅ (mjoin (Samples.two_metas !! i))
                        !! lit "source_file"))
                    (default (PInt (Z.of_nat i))
                       (default ∅ (mjoin (Samples.two_metas !! i))
                        !! lit "chunk_index"))))
    /\ (forall i, i < length Samples.two_docs -> Samples.two_metas !! i = None ->
          exists cid,
            citations !! i
            = Some (Citation cid (PStr (lit "unknown")) (PInt (Z.of_nat i)))).
Proof.
  apply (retrieve_context_citations (fun q => q) (fun _ _ => Samples.two_results)
           (lit "fees") 4 Samples.two_docs Samples.two_metas Samples.two_ids);
    [reflexivity | reflexivity | reflexivity |].
  intros [|[|i]] Hi; [discriminate | discriminate | simpl in Hi; lia].
Defined.

Lemma retrieve_context_fails_iff_witness :
  (retrieve_context (fun q => q) (fun _ _ => Samples.result_without_metadata)
     (lit "fees") 4 = raise AttributeError
   <-> None ∈ take (length [PStr (lit "text")]) [@None metadata])
  /\ (None ∉ take (length [PStr (lit "text")]) [@None metadata] ->
      exists r,
        retrieve_context (fun q => q) (fun _ _ => Samples.result_without_metadata)
          (lit "fees") 4 = ret r).
Proof.
  apply (retrieve_context_fails_iff (fun q => q)
           (fun _ _ => Samples.result_without_metadata) (lit "fees") 4
           [PStr (lit "text")] [None] [lit "id1"]); reflexivity.
Defined.

Lemma enriched_prompt_cases_witness :
  enriched_prompt (fun q => q) (fun _ _ => Samples.two_results) false (lit "fees")
  = ret (lit "fees")
  /\ (Samples.two_docs = [] ->
      enriched_prompt (fun q => q) (fun _ _ => Samples.two_results) true (lit "fees")
      = ret (lit "fees"))
  /\ (Samples.two_docs <> [] ->
      None ∉ take (length Samples.two_docs) Samples.two_metas ->
      exists context rest,
        context = 91%N :: rest
        /\ strip context = context
        /\ enriched_prompt (fun q => q) (fun _ _ => Samples.two_results) true
             (lit "fees")
           = ret (prompt_head ++ context ++ prompt_middle ++ lit "fees" ++ [10%N]))
  /\ (None ∈ take (length Samples.two_docs) Samples.two_metas ->
      enriched_prompt (fun q => q) (fun _ _ => Samples.two_results) true (lit "fees")
      = raise AttributeError).
Proof.
  apply (enriched_prompt_cases (fun q => q) (fun _ _ => Samples.two_results)
           (lit "fees") Samples.two_docs Samples.two_metas Samples.two_ids);
    reflexivity.
Defined.

End RetrievalExtras.

(** ** More on reading files *)

Module TextIOExtras.

Import TextIO TextIOFacts.

Lemma decode_with_utf8 (e : pystr) (s : pystr) :
  Forall (fun c => scalar c = true) s ->
  decode_with e (flat_map utf8 s) = s.
Proof.
  induction 1 as [|c s Hc _ IH]; [reflexivity|].
  cbn [flat_map]. rewrite (decode_with_char e c _ Hc). now rewrite IH.
Qed.

Lemma translate_newlines_id (s : pystr) :
  13%N ∉ s -> translate_newlines s = s.
Proof.
  induction s as [|c s IH]; intros Hs; [reflexivity|].
  apply not_elem_of_cons in Hs as [Hc Hs]. cbn [translate_newlines].
  destruct (N.eqb_spec c 13); [congruence|]. now rewrite IH.
Qed.

(** A file that holds the UTF-8 encoding of a text is read as that text,
    up to the translation of line ends: as the text itself when it has
    no carriage return. Nothing is lost on valid input. *)
Theorem read_text_valid_utf8 (s : pystr) :
  Forall (fun c => scalar c = true) s ->
  decode_ignore (flat_map utf8 s) = s
  /\ read_text (flat_map utf8 s) = translate_newlines s
  /\ (13%N ∉ s -> read_text (flat_map utf8 s) = s).
Proof.
  intros Hs. unfold read_text, decode_ignore.
  rewrite (decode_with_utf8 [] s Hs).
  split; [reflexivity|]. split; [reflexivity|]. apply translate_newlines_id.
Qed.

Lemma read_text_valid_utf8_witness :
  decode_ignore (flat_map utf8 [65; 233; 8364; 128512]%N)
  = [65; 233; 8364; 128512]%N
  /\ read_text (flat_map utf8 [65; 233; 8364; 128512]%N)
     = translate_newlines [65; 233; 8364; 128512]%N
  /\ (13%N ∉ [65; 233; 8364; 128512]%N ->
      read_text (flat_map utf8 [65; 233; 8364; 128512]%N)
      = [65; 233; 8364; 128512]%N).
Proof.
  apply (read_text_valid_utf8 [65; 233; 8364; 128512]%N).
  repeat constructor.
Defined.

Lemma translate_newlines_no_cr (s : pystr) :
  (13%N ∉ translate_newlines s)
  /\ (forall c, 13%N ∉ translate_newlines (c :: s)).
Proof.
  induction s as [|d r [IH1 IH2]].
  - split; [apply not_elem_of_nil|]. intros c. cbn [translate_newlines].
    destruct (N.eqb_spec c 13);
      (apply not_elem_of_cons; split; [congruence | apply not_elem_of_nil]).
  - split; [apply IH2|]. intros c.
    change (translate_newlines (c :: d :: r))
      with (if (c =? 13)%N
            then if (d =? 10)%N then 10%N :: translate_newlines r
                 else 10%N :: translate_newlines (d :: r)
            else c :: translate_newlines (d :: r)).
    destruct (N.eqb_spec c 13).
    + destruct (d =? 10)%N;
        (apply not_elem_of_cons; split; [discriminate|]); [exact IH1 | apply IH2].
    + apply not_elem_of_cons. split; [congruence | apply IH2].
Qed.

(** Whatever the bytes of the file, the text read has no carriage
    return: CR LF and a lone CR both arrive as LF. *)
Theorem read_text_no_cr (bs : list N) : 13%N ∉ read_text bs.
Proof. unfold read_text. apply translate_newlines_no_cr. Qed.

End TextIOExtras.

(** ** The two interfaces *)

Module InterfaceFacts.

(** The prompt building of the two interfaces is the same: on every
    store, switch and user text they send the same prompt or raise the
    same exception. *)
Theorem enriched_prompt_v1_v2 {embedding : Type} (encode : pystr -> embedding)
    (collection_query : embedding -> Z -> query_result)
    (use_rag : bool) (text context : pystr) :
  Geminitestv1.build_rag_prompt text context
  = Geminitestv2.build_rag_prompt text context
  /\ Geminitestv1.enriched_prompt encode collection_query use_rag text
     = Geminitestv2.enriched_prompt encode collection_query use_rag text.
Proof. split; reflexivity. Qed.

End InterfaceFacts.
